(** * SessionPoolEnvironment: the experience replay pool of AgentNet

    A shallow embedding of [agentnet/environment/session_pool.py].

    The pool keeps several parallel arrays (observations, actions, rewards,
    liveness flags, preceding agent memories) in theano shared variables.
    Python mutates those variables in place and raises exceptions, so the
    methods are written in a small state-and-exception monad in which the
    state survives a raised exception: whatever an operation wrote before it
    failed stays written. *)

From Stdlib Require Import String DecimalString ZArith Bool Arith Lia List Permutation.
Import ListNotations.

Set Implicit Arguments.

(** ** Exceptions and results *)

Inductive exn : Type :=
| AssertionError
| ValueError
| IndexError
| UnboundLocalError (name : string).

Inductive result (A : Type) : Type :=
| Ok (a : A)
| Raise (e : exn).

Arguments Ok {A} a.
Arguments Raise {A} e.

Definition rbind {A B} (r : result A) (k : A -> result B) : result B :=
  match r with
  | Ok a => k a
  | Raise e => Raise e
  end.

Declare Scope result_scope.
Delimit Scope result_scope with result.
Notation "x <~ c ;; k" := (rbind c (fun x => k))
  (at level 61, c at next level, right associativity) : result_scope.

(** [[f(x) for x in xs]] where [f] may raise: the first exception wins. *)
Fixpoint rmap {A B} (f : A -> result B) (xs : list A) : result (list B) :=
  match xs with
  | [] => Ok []
  | x :: xs' =>
      (y <~ f x ;;
       ys <~ rmap f xs' ;;
       Ok (y :: ys))%result
  end.

(** ** Python sequence indexing *)

(** [l[i]] for a Python integer [i] on a sequence of length [n]: indices
    [0 <= i < n] count from the front, [-n <= i < 0] from the back, anything
    else raises [IndexError]. *)
Definition py_index (n : nat) (i : Z) : result nat :=
  if ((0 <=? i) && (i <? Z.of_nat n))%Z then Ok (Z.to_nat i)
  else if ((- Z.of_nat n <=? i) && (i <? 0))%Z then Ok (Z.to_nat (i + Z.of_nat n))
  else Raise IndexError.

(** [l[start:]]: a negative start counts from the back, and the start is
    clamped into [0 .. len(l)]. *)
Definition slice_from {A} (start : Z) (l : list A) : list A :=
  let n := Z.of_nat (length l) in
  let s := if (start <? 0)%Z then Z.max 0 (start + n) else Z.min start n in
  skipn (Z.to_nat s) l.

(** [zip] stops at the shorter list; [combine] does the same. *)
Fixpoint zip_with {A B C} (f : A -> B -> C) (xs : list A) (ys : list B) : list C :=
  match xs, ys with
  | x :: xs', y :: ys' => f x y :: zip_with f xs' ys'
  | _, _ => []
  end.

Fixpoint list_eqb {A} (eqb : A -> A -> bool) (xs ys : list A) : bool :=
  match xs, ys with
  | [], [] => true
  | x :: xs', y :: ys' => eqb x y && list_eqb eqb xs' ys'
  | _, _ => false
  end.

(** ** Scalars and dtypes *)

Definition dtype := string.

(** The elements stored in the arrays.  The pool never computes with them: it
    creates zeros and ones, moves elements around and casts them to the dtype of
    the shared variable they are written to. *)
Class Scalar (S : Type) : Type := {
  zero : S;
  one : S;
  astype : dtype -> S -> S
}.

(** Integer-valued scalars, used only to run the pool on concrete sessions.
    Of the integer dtypes uint8 and int32 wrap around; every other dtype keeps
    the value, which is what numpy does for the float dtypes as long as the
    integer is small enough to be exact in them.  The theorems are stated for
    any [Scalar]; this instance only evaluates examples, at such values. *)
Definition astype_Z (d : dtype) (x : Z) : Z :=
  if String.eqb d "uint8" then (x mod 256)%Z
  else if String.eqb d "int32" then ((x + 2147483648) mod 4294967296 - 2147483648)%Z
  else x.

#[export] Instance Scalar_Z : Scalar Z :=
  {| zero := 0%Z; one := 1%Z; astype := astype_Z |}.

(** ** numpy arrays *)

Module np.
Section Arrays.
Context {S : Type} `{Scalar S}.

(** An array of at least one axis.  Axis 0 (the pool axis) is the list
    [rows]; every row is the row-major buffer of one sub-array of shape
    [inner].  [shape a = len(rows) :: inner]. *)
Record ndarray : Type := mk {
  inner : list nat;
  rows : list (list S)
}.

Definition shape (a : ndarray) : list nat := length (rows a) :: inner a.

Definition len (a : ndarray) : nat := length (rows a).

(** Number of elements of a sub-array of the given shape. *)
Definition size (dims : list nat) : nat := fold_right Nat.mul 1 dims.

(** The buffer of every row has the size its shape announces. *)
Definition wf (a : ndarray) : Prop :=
  Forall (fun r => length r = size (inner a)) (rows a).

(** [np.full((n,) + dims, x)] *)
Definition full (x : S) (n : nat) (dims : list nat) : ndarray :=
  {| inner := dims; rows := repeat (repeat x (size dims)) n |}.

(** [np.zeros((n,) + dims)] and [np.ones((n,) + dims)] *)
Definition zeros (n : nat) (dims : list nat) : ndarray := full zero n dims.
Definition ones (n : nat) (dims : list nat) : ndarray := full one n dims.

(** [a.astype(d)], element by element; the shape is kept. *)
Definition cast (d : dtype) (a : ndarray) : ndarray :=
  {| inner := inner a; rows := map (map (astype d)) (rows a) |}.

(** [np.concatenate((a, b), axis=0)]: all axes but the first must agree.
    The values of both arrays are kept (numpy promotes to a common dtype). *)
Definition concatenate (a b : ndarray) : result ndarray :=
  if list_eqb Nat.eqb (inner a) (inner b)
  then Ok {| inner := inner a; rows := rows a ++ rows b |}
  else Raise ValueError.

(** [np.concatenate((a, b), axis=1)]: axis 0 and the axes after 1 must
    agree. *)
Definition concatenate1 (a b : ndarray) : result ndarray :=
  match inner a, inner b with
  | Ta :: ca, Tb :: cb =>
      if list_eqb Nat.eqb ca cb && (len a =? len b)
      then Ok {| inner := (Ta + Tb) :: ca; rows := zip_with (@app S) (rows a) (rows b) |}
      else Raise ValueError
  | _, _ => Raise ValueError
  end.

(** [a[start:]] on the pool axis. *)
Definition slice_rows (start : Z) (a : ndarray) : ndarray :=
  {| inner := inner a; rows := slice_from start (rows a) |}.

(** [a[selector]] for an integer index array: the rows are gathered in the
    order of [selector]; an index outside [-len(a) .. len(a))] raises. *)
Definition take (a : ndarray) (selector : list Z) : result ndarray :=
  (rs <~ rmap (fun i => k <~ py_index (len a) i ;; Ok (nth k (rows a) [])) selector ;;
   Ok {| inner := inner a; rows := rs |})%result.

(** The [t]-th sub-array of [c] elements in the buffer of a row. *)
Definition cell (c : nat) (row : list S) (t : nat) : list S :=
  firstn c (skipn (t * c) row).

(** [a[:, 0]]: needs a second axis that is not empty, as the expression does
    when it is evaluated as written.  (Whether a compiled graph evaluates it on
    a stream of no tick depends on theano's optimiser; the theorems on the
    padded view are stated for streams of at least one tick.) *)
Definition first_tick (a : ndarray) : result ndarray :=
  match inner a with
  | [] => Raise IndexError
  | T :: c =>
      if T =? 0 then Raise IndexError
      else Ok {| inner := c; rows := map (fun r => cell (size c) r 0) (rows a) |}
  end.

(** [np.zeros_like(a)] *)
Definition zeros_like (a : ndarray) : ndarray :=
  {| inner := inner a; rows := map (map (fun _ => zero)) (rows a) |}.

(** [a[ps, ts]] for two index arrays of one length: element [b] of the
    result is the sub-array [a[ps[b], ts[b]]]. *)
Definition index2 (a : ndarray) (ps ts : list Z) : result ndarray :=
  match inner a with
  | [] => Raise IndexError
  | T :: c =>
      (cells <~ rmap (fun pt =>
                        p <~ py_index (len a) (fst pt) ;;
                        t <~ py_index T (snd pt) ;;
                        Ok (cell (size c) (nth p (rows a) []) t))
                     (combine ps ts) ;;
       Ok {| inner := c; rows := cells |})%result
  end.

End Arrays.
Arguments ndarray S : clear implicits.
End np.

(** ** Shared variables, layers and the random stream *)

Section Pool.
Context {S : Type} `{Scalar S}.

Local Notation ndarray := (np.ndarray S).

(** A theano shared variable: a named cell of a fixed dtype holding an
    array. *)
Record shared : Type := {
  name : string;
  var_dtype : dtype;
  get_value : ndarray
}.

(** Modelled from the spec: [create_shared] of [agentnet.utils], which is not
    under src/.  "Dtype of each stream is fixed at construction ... and all
    writes are cast to it": the initial value is cast to the dtype. *)
Definition create_shared (nm : string) (initial_value : ndarray) (d : dtype) : shared :=
  {| name := nm; var_dtype := d; get_value := np.cast d initial_value |}.

(** Modelled from the spec: [set_shared] of [agentnet.utils], which is not
    under src/.  "Replaces each stream wholesale with the supplied array, cast
    to that stream's fixed dtype." *)
Definition set_shared (var : shared) (value : ndarray) : shared :=
  {| name := name var; var_dtype := var_dtype var;
     get_value := np.cast (var_dtype var) value |}.

(** What the constructor reads of a layer it is asked to mimic. *)
Record layer : Type := {
  output_shape : list nat;
  output_dtype : option dtype
}.

(** Modelled from the spec: [get_layer_dtype] of [agentnet.utils.layers],
    which is not under src/.  The pool "reads each template's ... declared
    element dtype; absence of a declared dtype defaults to a floating-point
    type". *)
Definition get_layer_dtype (l : layer) (default : dtype) : dtype :=
  match output_dtype l with
  | Some d => d
  | None => default
  end.

(** A constructor argument is an int (a number of channels) or the layers to
    mimic: a list of them, a lone layer that [check_list] wraps into a list,
    or, for the memories, a dict read by its keys. *)
Inductive channels : Type :=
| Count (n : Z)
| Layers (ls : list layer).

(** Python's [str(i)] and [enumerate]. *)
Definition str (i : nat) : string := NilZero.string_of_uint (Nat.to_uint i).

Definition enumerate {A} (xs : list A) : list (nat * A) :=
  combine (seq 0 (length xs)) xs.

(** [range(n)] for a Python int: empty when [n] is negative. *)
Definition range (n : Z) : list nat := seq 0 (Z.to_nat n).
End Pool.

Arguments shared S : clear implicits.

(** The part of theano's [RandomStreams] the pool uses: seeding, and
    [choice(size=(n,), a=a, replace=replace)], called without weights, which
    returns the drawn indices and the advanced stream. *)
Class RandomStreams (R : Type) : Type := {
  seed : Z -> R;
  choice : R -> Z -> Z -> bool -> result (list Z) * R
}.

(** What [choice] promises: [n] indices of [[0, a)], distinct when drawn
    without replacement.  (That they are uniformly distributed is a fact about
    the generator, outside this development.) *)
Definition choice_contract {R} `{RandomStreams R} (rng : R) : Prop :=
  forall n a replace,
    (0 <= n)%Z ->
    (if replace : bool then 0 < a \/ n = 0 else n <= a)%Z ->
    exists ids,
      fst (choice rng n a replace) = Ok ids /\
      Z.of_nat (length ids) = n /\
      Forall (fun i => 0 <= i < a)%Z ids /\
      (replace = false -> NoDup ids).

(** ** The pool and its monad *)

Section Environment.
Context {S : Type} `{Scalar S} {R : Type} `{RandomStreams R}.

Local Notation ndarray := (np.ndarray S).
Local Notation shared := (shared S).

Record SessionPoolEnvironment : Type := {
  observations : list shared;
  actions : list shared;
  preceding_agent_memories : list shared;
  rewards : shared;
  is_alive : shared;
  rng : R;
  (* set once by BaseEnvironment.__init__ *)
  observation_shapes : list (list nat);
  action_shapes : list (list nat)
}.

Definition set_observations (v : list shared) (self : SessionPoolEnvironment) :=
  {| observations := v; actions := self.(actions);
     preceding_agent_memories := self.(preceding_agent_memories);
     rewards := self.(rewards); is_alive := self.(is_alive); rng := self.(rng);
     observation_shapes := self.(observation_shapes);
     action_shapes := self.(action_shapes) |}.

Definition set_actions (v : list shared) (self : SessionPoolEnvironment) :=
  {| observations := self.(observations); actions := v;
     preceding_agent_memories := self.(preceding_agent_memories);
     rewards := self.(rewards); is_alive := self.(is_alive); rng := self.(rng);
     observation_shapes := self.(observation_shapes);
     action_shapes := self.(action_shapes) |}.

Definition set_preceding_agent_memories (v : list shared) (self : SessionPoolEnvironment) :=
  {| observations := self.(observations); actions := self.(actions);
     preceding_agent_memories := v;
     rewards := self.(rewards); is_alive := self.(is_alive); rng := self.(rng);
     observation_shapes := self.(observation_shapes);
     action_shapes := self.(action_shapes) |}.

Definition set_rewards (v : shared) (self : SessionPoolEnvironment) :=
  {| observations := self.(observations); actions := self.(actions);
     preceding_agent_memories := self.(preceding_agent_memories);
     rewards := v; is_alive := self.(is_alive); rng := self.(rng);
     observation_shapes := self.(observation_shapes);
     action_shapes := self.(action_shapes) |}.

Definition set_is_alive (v : shared) (self : SessionPoolEnvironment) :=
  {| observations := self.(observations); actions := self.(actions);
     preceding_agent_memories := self.(preceding_agent_memories);
     rewards := self.(rewards); is_alive := v; rng := self.(rng);
     observation_shapes := self.(observation_shapes);
     action_shapes := self.(action_shapes) |}.

Definition set_rng (v : R) (self : SessionPoolEnvironment) :=
  {| observations := self.(observations); actions := self.(actions);
     preceding_agent_memories := self.(preceding_agent_memories);
     rewards := self.(rewards); is_alive := self.(is_alive); rng := v;
     observation_shapes := self.(observation_shapes);
     action_shapes := self.(action_shapes) |}.

(** A method runs on the pool and leaves a result or an exception together
    with the pool as it then is. *)
Definition M (A : Type) : Type :=
  SessionPoolEnvironment -> result A * SessionPoolEnvironment.

Definition ret {A} (a : A) : M A := fun self => (Ok a, self).

Definition bind {A B} (c : M A) (k : A -> M B) : M B :=
  fun self =>
    match c self with
    | (Ok a, self') => k a self'
    | (Raise e, self') => (Raise e, self')
    end.

Definition raise {A} (e : exn) : M A := fun self => (Raise e, self).

Definition get : M SessionPoolEnvironment := fun self => (Ok self, self).

Definition modify (f : SessionPoolEnvironment -> SessionPoolEnvironment) : M unit :=
  fun self => (Ok tt, f self).

Definition lift {A} (r : result A) : M A := fun self => (r, self).

(** [assert b] *)
Definition assert (b : bool) : M unit :=
  if b then ret tt else raise AssertionError.

(** Reading a local variable of the method: a local that no executed
    statement has assigned is unbound. *)
Definition read_local {A} (nm : string) (v : option A) : M A :=
  match v with
  | Some a => ret a
  | None => raise (UnboundLocalError nm)
  end.
End Environment.

Declare Scope pool_scope.
Delimit Scope pool_scope with pool.
Notation "x <- c ;; k" := (bind c (fun x => k))
  (at level 61, c at next level, right associativity) : pool_scope.
Notation "c ;; k" := (bind c (fun _ => k))
  (at level 61, right associativity) : pool_scope.

(** ** The methods of [SessionPoolEnvironment] *)

Section Methods.
Context {S : Type} `{Scalar S} {R : Type} `{RandomStreams R}.

Local Notation ndarray := (np.ndarray S).
Local Notation shared := (shared S).
Local Notation SessionPoolEnvironment := (@SessionPoolEnvironment S R).
Local Notation M := (@M S R).

(** [theano.config.floatX] *)
Variable floatX : dtype.

Local Open Scope string_scope.
Local Open Scope list_scope.
Local Open Scope nat_scope.
Local Open Scope pool_scope.

(** [l[i]] on a Python list. *)
Definition getitem {A} (l : list A) (i : Z) : result A :=
  match py_index (length l) i with
  | Ok k =>
      match nth_error l k with
      | Some x => Ok x
      | None => Raise IndexError
      end
  | Raise e => Raise e
  end.

(** [__init__]: every stream gets a placeholder of ten sessions of five
    ticks. *)
Definition __init__ (observations actions agent_memories : channels)
    (default_action_dtype : dtype) (rng_seed : Z) : SessionPoolEnvironment :=
  let self_observations :=
    match observations with
    | Count n =>
        let observation_init := np.zeros 10 [5; 2] in
        map (fun i => create_shared ("sessions.observations_history." ++ str i)%string
                        observation_init floatX)
            (range n)
    | Layers ls =>
        map (fun '(i, obs) =>
               create_shared ("sessions.observations_history." ++ str i)%string
                 (np.zeros 10 (5 :: tl (output_shape obs)))
                 (get_layer_dtype obs floatX))
            (enumerate ls)
    end in
  let self_actions :=
    match actions with
    | Count n =>
        map (fun i => create_shared ("session.actions_history." ++ str i)%string
                        (np.zeros 10 [5]) default_action_dtype)
            (range n)
    | Layers ls =>
        map (fun '(i, action) =>
               create_shared ("session.actions_history." ++ str i)%string
                 (np.zeros 10 (5 :: tl (output_shape action)))
                 (get_layer_dtype action floatX))
            (enumerate ls)
    end in
  let self_preceding_agent_memories :=
    match agent_memories with
    | Count n =>
        let memory_init := np.zeros 10 [5] in
        map (fun i => create_shared ("session.prev_memory." ++ str i)%string memory_init floatX)
            (range n)
    | Layers ls =>
        map (fun '(i, mem) =>
               create_shared ("session.prev_memory." ++ str i)%string
                 (np.zeros 10 (tl (output_shape mem)))
                 (get_layer_dtype mem floatX))
            (enumerate ls)
    end in
  {| observations := self_observations;
     actions := self_actions;
     preceding_agent_memories := self_preceding_agent_memories;
     rewards := create_shared "session.rewards_history" (np.zeros 10 [5]) floatX;
     is_alive := create_shared "session.is_alive" (np.ones 10 [5]) "uint8";
     rng := seed rng_seed;
     observation_shapes :=
       map (fun obs => skipn 2 (np.shape (get_value obs))) self_observations;
     action_shapes :=
       map (fun act => skipn 2 (np.shape (get_value act))) self_actions |}.

(** [self.pool_size], [self.batch_size] and [self.sequence_length] are the
    symbolic expressions [self.rewards.shape[0]] and [self.rewards.shape[1]]:
    they are read off the rewards variable whenever they are evaluated.  An
    array has a first axis, so [shape[0]] cannot fail; [shape[1]] can. *)
Definition pool_size (self : SessionPoolEnvironment) : nat :=
  hd 0 (np.shape (get_value self.(rewards))).

Definition batch_size (self : SessionPoolEnvironment) : nat :=
  pool_size self.

Definition sequence_length (self : SessionPoolEnvironment) : result nat :=
  getitem (np.shape (get_value self.(rewards))) 1.

(** Modelled from the spec: [insert_dim(x, 1)] of [agentnet.utils], which is
    not under src/; it makes the "one extra tick" out of one tick of the
    stream by giving it a time axis of length one. *)
Definition insert_dim1 (a : ndarray) : ndarray :=
  {| np.inner := 1 :: np.inner a; np.rows := np.rows a |}.

(** [self.padded_observations], one symbolic expression per channel:
    [T.concatenate([obs, T.zeros_like(insert_dim(obs[:, 0], 1))], axis=1)]. *)
Definition padded_observations (self : SessionPoolEnvironment) : list (result ndarray) :=
  map (fun obs_var =>
         let obs := get_value obs_var in
         (tick0 <~ np.first_tick obs ;;
          np.concatenate1 obs (np.zeros_like (insert_dim1 tick0)))%result)
      self.(observations).

(** [get_action_results]: the state is the list holding the vector of the
    time indices, one per session of the batch.  The indices are the caller's
    integers; nothing is cast here, and [actions] is not read. *)
Definition get_action_results (self : SessionPoolEnvironment)
    (last_states : list (list Z)) (actions : list ndarray)
  : result (list (list Z) * list ndarray) :=
  (time_i <~ getitem last_states 0 ;;
   let batch_range := map Z.of_nat (seq 0 (length time_i)) in
   new_observations <~
     rmap (fun padded =>
             obs <~ padded ;;
             np.index2 obs batch_range (map (fun t => t + 1)%Z time_i))
          (padded_observations self) ;;
   Ok ([map (fun t => t + 1)%Z time_i], new_observations))%result.

(** [for var, seq in zip(vars, seqs): set_shared(var, seq)] *)
Fixpoint set_each (vars : list shared) (seqs : list ndarray) : list shared :=
  match vars, seqs with
  | var :: vars', seq :: seqs' => set_shared var seq :: set_each vars' seqs'
  | _, _ => vars
  end.

(** [load_sessions].  The observation, action and memory arguments are the
    lists [check_list] makes of them ([agentnet.utils.format], not under src/:
    it wraps a lone array into a list).  The argument [is_alive] of
    [load_sessions] and [append_sessions] is written [is_alive_seq], the name
    [is_alive] being the attribute of the pool. *)
Definition load_sessions (observation_sequences action_sequences : list ndarray)
    (reward_seq : ndarray) (is_alive_seq : option ndarray)
    (prev_memories : option (list ndarray)) : M unit :=
  self <- get ;;
  assert (length observation_sequences =? length self.(observations)) ;;
  assert (length action_sequences =? length self.(actions)) ;;
  match prev_memories with
  | Some pm => assert (length pm =? length self.(preceding_agent_memories))
  | None => ret tt
  end ;;
  modify (fun self =>
            set_observations (set_each self.(observations) observation_sequences) self) ;;
  modify (fun self => set_actions (set_each self.(actions) action_sequences) self) ;;
  modify (fun self => set_rewards (set_shared self.(rewards) reward_seq) self) ;;
  match is_alive_seq with
  | Some alive => modify (fun self => set_is_alive (set_shared self.(is_alive) alive) self)
  | None => ret tt
  end ;;
  match prev_memories with
  | Some pm =>
      modify (fun self =>
                set_preceding_agent_memories
                  (set_each self.(preceding_agent_memories) pm) self)
  | None => ret tt
  end.

(** [[np.concatenate((var.get_value(), new), axis=0) for var, new in zip(vars, news)]] *)
Definition concatenate_each (vars : list shared) (news : list ndarray)
  : result (list ndarray) :=
  rmap (fun vn => np.concatenate (get_value (fst vn)) (snd vn)) (combine vars news).

Definition append_sessions (observation_sequences action_sequences : list ndarray)
    (reward_seq : ndarray) (is_alive_seq : option ndarray)
    (prev_memories : option (list ndarray)) (max_pool_size : option Z) : M unit :=
  self <- get ;;
  assert (length observation_sequences =? length self.(observations)) ;;
  assert (length action_sequences =? length self.(actions)) ;;
  match prev_memories with
  | Some pm => assert (length pm =? length self.(preceding_agent_memories))
  | None => ret tt
  end ;;
  observation_tensors <- lift (concatenate_each self.(observations) observation_sequences) ;;
  action_tensors <- lift (concatenate_each self.(actions) action_sequences) ;;
  let rwd := get_value self.(rewards) in
  reward_tensor <- lift (np.concatenate rwd reward_seq) ;;
  (* is_alive_tensor and preceding_memory_states are assigned only under
     their [if]: otherwise the locals stay unbound *)
  is_alive_tensor <-
    match is_alive_seq with
    | Some alive =>
        let is_a := get_value self.(is_alive) in
        t <- lift (np.concatenate is_a alive) ;; ret (Some t)
    | None => ret None
    end ;;
  preceding_memory_states <-
    match prev_memories with
    | Some pm =>
        ts <- lift (concatenate_each self.(preceding_agent_memories) pm) ;; ret (Some ts)
    | None => ret None
    end ;;
  (* crop to pool size *)
  cropped <-
    match max_pool_size with
    | Some m =>
        first <- lift (getitem observation_tensors 0) ;;
        let new_size := Z.of_nat (np.len first) in
        if (new_size >? m)%Z then
          (* observation_tensor and action_tensor are assigned nowhere before
             they are read here *)
          observation_tensor <- read_local "observation_tensor" (@None ndarray) ;;
          let observation_tensor := np.slice_rows (- m) observation_tensor in
          action_tensor <- read_local "action_tensor" (@None ndarray) ;;
          let action_tensor := np.slice_rows (- m) action_tensor in
          let reward_tensor := np.slice_rows (- m) reward_tensor in
          is_alive_tensor <- read_local "is_alive_tensor" is_alive_tensor ;;
          let is_alive_tensor := np.slice_rows (- m) is_alive_tensor in
          preceding_memory_states <-
            read_local "preceding_memory_states" preceding_memory_states ;;
          let preceding_memory_states := slice_from (- m) preceding_memory_states in
          ret (reward_tensor, Some is_alive_tensor, Some preceding_memory_states)
        else ret (reward_tensor, is_alive_tensor, preceding_memory_states)
    | None => ret (reward_tensor, is_alive_tensor, preceding_memory_states)
    end ;;
  let '(reward_tensor, is_alive_tensor, preceding_memory_states) := cropped in
  (* load everything into the environment *)
  is_alive_tensor <- read_local "is_alive_tensor" is_alive_tensor ;;
  preceding_memory_states <- read_local "preceding_memory_states" preceding_memory_states ;;
  load_sessions observation_tensors action_tensors reward_tensor
    (Some is_alive_tensor) (Some preceding_memory_states).

(** What [SessionBatchEnvironment(...)] is given by [select_session_batch]. *)
Record SessionBatchEnvironment : Type := {
  batch_observations : list ndarray;
  batch_observation_shapes : list (list nat);
  batch_actions : list ndarray;
  batch_action_shapes : list (list nat);
  batch_rewards : ndarray;
  batch_is_alive : ndarray;
  batch_preceding_agent_memories : list ndarray
}.

(** [[var[selector] for var in vars]] *)
Definition take_each (vars : list shared) (selector : list Z) : result (list ndarray) :=
  rmap (fun var => np.take (get_value var) selector) vars.

Definition select_session_batch (selector : list Z) : M SessionBatchEnvironment :=
  self <- get ;;
  selected_observations <- lift (take_each self.(observations) selector) ;;
  selected_actions <- lift (take_each self.(actions) selector) ;;
  selected_prev_memories <- lift (take_each self.(preceding_agent_memories) selector) ;;
  selected_rewards <- lift (np.take (get_value self.(rewards)) selector) ;;
  selected_is_alive <- lift (np.take (get_value self.(is_alive)) selector) ;;
  ret {| batch_observations := selected_observations;
         batch_observation_shapes := self.(observation_shapes);
         batch_actions := selected_actions;
         batch_action_shapes := self.(action_shapes);
         batch_rewards := selected_rewards;
         batch_is_alive := selected_is_alive;
         batch_preceding_agent_memories := selected_prev_memories |}.

(** [self.rng.choice(size=(n,), a=a, replace=replace)]: draws and advances
    the stream owned by the pool. *)
Definition rng_choice (n a : Z) (replace : bool) : M (list Z) :=
  fun self =>
    let (ids, rng') := choice self.(rng) n a replace in
    (ids, set_rng rng' self).

Definition sample_session_batch (max_n_samples : Z) (replace : bool)
  : M SessionBatchEnvironment :=
  self <- get ;;
  let n_samples :=
    if replace then max_n_samples
    else Z.min max_n_samples (Z.of_nat (pool_size self)) in
  sample_ids <- rng_choice n_samples (Z.of_nat (pool_size self)) replace ;;
  select_session_batch sample_ids.

End Methods.

(** ** A deterministic stream and a fresh pool, to run the methods *)

(** A counter stands for the stream: a draw of [n] indices starts at the
    counter and walks round [[0, a)], then the counter moves on. *)
Definition counter_choice (r n a : Z) (replace : bool) : result (list Z) * Z :=
  if (n <? 0)%Z then (Raise ValueError, r)
  else if (if replace then (a <=? 0) && (0 <? n) else a <? n)%Z then (Raise ValueError, r)
  else (Ok (map (fun k => (r + Z.of_nat k) mod a)%Z (seq 0 (Z.to_nat n))), (r + 1)%Z).

#[export] Instance RandomStreams_counter : RandomStreams Z :=
  {| seed := fun s => s; choice := counter_choice |}.

(** [SessionPoolEnvironment()] with all the defaults, [floatX] being
    float32. *)
Definition fresh_pool : @SessionPoolEnvironment Z Z :=
  __init__ "float32"%string (Count 1) (Count 1) (Count 1) "int32"%string 1337.

(** [n] sessions whose elements all are [x], shaped like the default
    streams. *)
Definition sessions_obs (x : Z) (n : nat) : np.ndarray Z := np.full x n [5; 2].
Definition sessions_flat (x : Z) (n : nat) : np.ndarray Z := np.full x n [5].

(** What the assertions opening [load_sessions] and [append_sessions] test. *)
Definition counts_agree {S R} (self : @SessionPoolEnvironment S R)
    (observation_sequences action_sequences : list (np.ndarray S))
    (prev_memories : option (list (np.ndarray S))) : bool :=
  (length observation_sequences =? length self.(observations))
  && (length action_sequences =? length self.(actions))
  && match prev_memories with
     | Some pm => length pm =? length self.(preceding_agent_memories)
     | None => true
     end.

(** The pool [load_sessions] leaves when its assertions pass. *)
Definition loaded {S R} `{Scalar S} (self : @SessionPoolEnvironment S R)
    (observation_sequences action_sequences : list (np.ndarray S))
    (reward_seq : np.ndarray S) (is_alive_seq : option (np.ndarray S))
    (prev_memories : option (list (np.ndarray S))) : @SessionPoolEnvironment S R :=
  {| observations := set_each self.(observations) observation_sequences;
     actions := set_each self.(actions) action_sequences;
     preceding_agent_memories :=
       match prev_memories with
       | Some pm => set_each self.(preceding_agent_memories) pm
       | None => self.(preceding_agent_memories)
       end;
     rewards := set_shared self.(rewards) reward_seq;
     is_alive :=
       match is_alive_seq with
       | Some alive => set_shared self.(is_alive) alive
       | None => self.(is_alive)
       end;
     rng := self.(rng);
     observation_shapes := self.(observation_shapes);
     action_shapes := self.(action_shapes) |}.

(** The concatenations [append_sessions] makes before it looks at
    [max_pool_size]: the locals [observation_tensors], [action_tensors],
    [reward_tensor], [is_alive_tensor] and [preceding_memory_states], the last
    two unbound ([None]) when the argument was omitted. *)
Definition concatenated {S R} (self : @SessionPoolEnvironment S R)
    (observation_sequences action_sequences : list (np.ndarray S))
    (reward_seq : np.ndarray S) (is_alive_seq : option (np.ndarray S))
    (prev_memories : option (list (np.ndarray S)))
  : result (list (np.ndarray S) * list (np.ndarray S) * np.ndarray S
            * option (np.ndarray S) * option (list (np.ndarray S))) :=
  (ots <~ concatenate_each self.(observations) observation_sequences ;;
   ats <~ concatenate_each self.(actions) action_sequences ;;
   rt <~ np.concatenate (get_value self.(rewards)) reward_seq ;;
   iat <~ match is_alive_seq with
          | Some alive =>
              t <~ np.concatenate (get_value self.(is_alive)) alive ;; Ok (Some t)
          | None => Ok None
          end ;;
   pms <~ match prev_memories with
          | Some pm =>
              ts <~ concatenate_each self.(preceding_agent_memories) pm ;; Ok (Some ts)
          | None => Ok None
          end ;;
   Ok (ots, ats, rt, iat, pms))%result.

(** Whether [append_sessions] enters its crop branch:
    [max_pool_size is not None and len(observation_tensors[0]) > max_pool_size]. *)
Definition crops {S} (observation_tensors : list (np.ndarray S))
    (max_pool_size : option Z) : result bool :=
  match max_pool_size with
  | Some m =>
      (first <~ getitem observation_tensors 0 ;;
       Ok (Z.of_nat (np.len first) >? m)%Z)%result
  | None => Ok false
  end.

(** Sessions to run the pool on: a pool emptied by loading arrays of no
    session, then two sessions [A] appended to it. *)
Definition empty_pool : @SessionPoolEnvironment Z Z :=
  snd (load_sessions [sessions_obs 0 0] [sessions_flat 0 0] (sessions_flat 0 0)
         (Some (sessions_flat 0 0)) (Some [sessions_flat 0 0]) fresh_pool).

Definition pool_A : @SessionPoolEnvironment Z Z :=
  snd (append_sessions [sessions_obs 1 2] [sessions_flat 1 2] (sessions_flat 1 2)
         (Some (sessions_flat 1 2)) (Some [sessions_flat 1 2]) None empty_pool).

(** The calls that write the pool.  A caller may go on using the pool after
    a call has raised: [after] runs the calls one after the other, keeping the
    pool each of them leaves. *)
Inductive call (S : Type) : Type :=
| Load (observation_sequences action_sequences : list (np.ndarray S))
    (reward_seq : np.ndarray S) (is_alive_seq : option (np.ndarray S))
    (prev_memories : option (list (np.ndarray S)))
| Append (observation_sequences action_sequences : list (np.ndarray S))
    (reward_seq : np.ndarray S) (is_alive_seq : option (np.ndarray S))
    (prev_memories : option (list (np.ndarray S))) (max_pool_size : option Z).

Definition perform {S R} `{Scalar S} (c : call S) : @M S R unit :=
  match c with
  | Load obs act rew alive pm => load_sessions obs act rew alive pm
  | Append obs act rew alive pm mps => append_sessions obs act rew alive pm mps
  end.

Definition after {S R} `{Scalar S} (cs : list (call S))
    (self : @SessionPoolEnvironment S R) : @SessionPoolEnvironment S R :=
  fold_left (fun s c => snd (perform c s)) cs self.

(** The rewards a call supplies. *)
Definition supplied_rewards {S} (c : call S) : np.ndarray S :=
  match c with
  | Load _ _ rew _ _ => rew
  | Append _ _ rew _ _ _ => rew
  end.

(** The row an in-range Python index picks, and the array of the rows picked
    by a selector, in its order. *)
Definition row_at {S} (a : np.ndarray S) (i : Z) : list S :=
  nth (Z.to_nat (i mod Z.of_nat (np.len a))) (np.rows a) [].

Definition gathered {S} (a : np.ndarray S) (selector : list Z) : np.ndarray S :=
  {| np.inner := np.inner a; np.rows := map (row_at a) selector |}.

(** Every stream of the pool has [pool_size] sessions. *)
Definition consistent {S R} (self : @SessionPoolEnvironment S R) : Prop :=
  Forall (fun v => np.len (get_value v) = pool_size self)
    (self.(observations) ++ self.(actions) ++ self.(preceding_agent_memories)
     ++ [self.(is_alive)]).

(** The scenario of the specification: three sessions whose reward rows are
    all ones, all zeros and all twos; the observations, actions, liveness and
    memories of session [k] are filled with [10 + k]. *)
Definition three_rows (c : nat) (x y z : Z) : np.ndarray Z :=
  {| np.inner := [c]; np.rows := [repeat x c; repeat y c; repeat z c] |}.

Definition three_obs : np.ndarray Z :=
  {| np.inner := [5; 2]; np.rows := [repeat 10%Z 10; repeat 11%Z 10; repeat 12%Z 10] |}.

Definition scenario_pool : @SessionPoolEnvironment Z Z :=
  snd (load_sessions [three_obs] [three_rows 5 10 11 12] (three_rows 5 1 0 2)
         (Some (three_rows 5 1 1 1)) (Some [three_rows 5 10 11 12]) fresh_pool).

(** [a[p, t]] for a session [p] and a tick [t] within the array. *)
Definition at2 {S} (a : np.ndarray S) (p t : nat) : list S :=
  np.cell (np.size (tl (np.inner a))) (nth p (np.rows a) []) t.

(** [[padded[b, time_i[b] + 1] for b in range(len(time_i))]], as one array. *)
Definition lookahead {S} (padded : np.ndarray S) (time_i : list Z) : np.ndarray S :=
  {| np.inner := tl (np.inner padded);
     np.rows := map (fun bt => at2 padded (fst bt) (Z.to_nat (snd bt + 1)))
                    (enumerate time_i) |}.

(** An observation stream with one tick of zeros after its last tick. *)
Definition one_more_tick {S} `{Scalar S} (a : np.ndarray S) : np.ndarray S :=
  {| np.inner := match np.inner a with
                 | T :: c => (T + 1) :: c
                 | [] => []
                 end;
     np.rows := map (fun r => r ++ repeat zero (np.size (tl (np.inner a)))) (np.rows a) |}.

(** ** The remaining methods: [get_reward] and [get_session_updates] *)

Section OtherMethods.
Context {S : Type} `{Scalar S} {R : Type}.

Local Notation ndarray := (np.ndarray S).
Local Notation shared := (shared S).
Local Notation SessionPoolEnvironment := (@SessionPoolEnvironment S R).

(** [a[i, :]] for an integer [i]: session [i] as an array whose first axis
    is the ticks.  The array needs a second axis. *)
Definition getitem_row (a : ndarray) (i : Z) : result ndarray :=
  match np.inner a with
  | [] => Raise IndexError
  | T :: c =>
      (k <~ py_index (np.len a) i ;;
       Ok {| np.inner := c;
             np.rows := map (np.cell (np.size c) (nth k (np.rows a) [])) (seq 0 T) |})%result
  end.

(** The text [get_reward] hands to [warn]: two adjacent literals, joined
    without a blank. *)
Definition get_reward_warning : string :=
  String.append
    "Warning - a session pool has all the rewards already stored as .rewards property."
    "Recomputing them this way is probably just a slower way of calling your_session_pool.rewards".

(** [get_reward]: the warnings it issues, and [self.rewards[batch_id, :]]. *)
Definition get_reward (self : SessionPoolEnvironment)
    (session_states session_actions : ndarray) (batch_id : Z)
  : list string * result ndarray :=
  ([get_reward_warning], getitem_row (get_value self.(rewards)) batch_id).

(** A shared variable of the pool as a dict key.  Theano variables are
    compared by identity and the variables of a pool are distinct objects: a
    key is the place of the variable in the pool, and it carries the variable
    for [var.dtype]. *)
Inductive place : Type :=
| ObservationVar (i : nat)
| ActionVar (i : nat)
| PrecedingMemoryVar (i : nat)
| RewardsVar
| IsAliveVar.

Definition place_eqb (p q : place) : bool :=
  match p, q with
  | ObservationVar i, ObservationVar j => i =? j
  | ActionVar i, ActionVar j => i =? j
  | PrecedingMemoryVar i, PrecedingMemoryVar j => i =? j
  | RewardsVar, RewardsVar => true
  | IsAliveVar, IsAliveVar => true
  | _, _ => false
  end.

Definition key : Type := place * shared.

(** An [OrderedDict]: the items in the order of their first insertion. *)
Definition OrderedDict : Type := list (key * ndarray).

(** [d[k] = v]: an existing key keeps its position and gets the value, a new
    key goes to the end. *)
Fixpoint setitem (k : key) (v : ndarray) (d : OrderedDict) : OrderedDict :=
  match d with
  | [] => [(k, v)]
  | (k', v') :: d' =>
      if place_eqb (fst k) (fst k') then (k, v) :: d'
      else (k', v') :: setitem k v d'
  end.

(** The variables of a channel list as keys. *)
Definition keys_of (mk : nat -> place) (vars : list shared) : list key :=
  map (fun iv => (mk (fst iv), snd iv)) (enumerate vars).

(** [for var, seq in zip(vars, seqs): updates[var] = seq] *)
Definition setitem_each (ks : list key) (seqs : list ndarray) (updates : OrderedDict)
  : OrderedDict :=
  fold_left (fun d kv => setitem (fst kv) (snd kv) d) (combine ks seqs) updates.

Definition rassert (b : bool) : result unit :=
  if b then Ok tt else Raise AssertionError.

(** [get_session_updates].  As in [load_sessions] the array arguments are
    lists, and [is_alive] is written [is_alive_seq]. *)
Definition get_session_updates (self : SessionPoolEnvironment)
    (observation_sequences action_sequences : list ndarray) (reward_seq : ndarray)
    (is_alive_seq : option ndarray) (prev_memory : option (list ndarray))
    (cast_dtypes : bool) : result OrderedDict :=
  (_ <~ rassert (length observation_sequences =? length self.(observations)) ;;
   _ <~ rassert (length action_sequences =? length self.(actions)) ;;
   _ <~ match prev_memory with
        | Some pm => rassert (length pm =? length self.(preceding_agent_memories))
        | None => Ok tt
        end ;;
   let updates : OrderedDict := [] in
   let updates :=
     setitem_each (keys_of ObservationVar self.(observations)) observation_sequences
       updates in
   let updates :=
     setitem_each (keys_of ActionVar self.(actions)) action_sequences updates in
   let updates := setitem (RewardsVar, self.(rewards)) reward_seq updates in
   let updates :=
     match is_alive_seq with
     | Some alive => setitem (IsAliveVar, self.(is_alive)) alive updates
     | None => updates
     end in
   let updates :=
     match prev_memory with
     | Some pm =>
         setitem_each (keys_of PrecedingMemoryVar self.(preceding_agent_memories)) pm
           updates
     | None => updates
     end in
   let updates :=
     if cast_dtypes then
       fold_left (fun casted_updates item =>
                    let var := fst item in
                    let upd := snd item in
                    setitem var (np.cast (var_dtype (snd var)) upd) casted_updates)
                 updates []
     else updates in
   Ok updates)%result.

End OtherMethods.

(** The value a pool holds at a place. *)
Definition value_at {S R} (self : @SessionPoolEnvironment S R) (p : place)
  : option (np.ndarray S) :=
  option_map (@get_value S)
    match p with
    | ObservationVar i => nth_error self.(observations) i
    | ActionVar i => nth_error self.(actions) i
    | PrecedingMemoryVar i => nth_error self.(preceding_agent_memories) i
    | RewardsVar => Some self.(rewards)
    | IsAliveVar => Some self.(is_alive)
    end.

(** The places [get_session_updates] lists, in the order in which it sets
    them; they are the places [load_sessions] may write. *)
Definition written_places {S R} (self : @SessionPoolEnvironment S R)
    (is_alive_given prev_memories_given : bool) : list place :=
  map ObservationVar (seq 0 (length self.(observations)))
  ++ map ActionVar (seq 0 (length self.(actions)))
  ++ [RewardsVar]
  ++ (if is_alive_given then [IsAliveVar] else [])
  ++ (if prev_memories_given
      then map PrecedingMemoryVar (seq 0 (length self.(preceding_agent_memories)))
      else []).

(** Whether [np.concatenate] accepts every pair [append_sessions] gives it:
    the supplied array and the stored one agree on all axes but the pool
    axis. *)
Definition same_inner {S} (var : shared S) (new : np.ndarray S) : bool :=
  list_eqb Nat.eqb (np.inner (get_value var)) (np.inner new).

Definition appendable {S R} (self : @SessionPoolEnvironment S R)
    (observation_sequences action_sequences : list (np.ndarray S))
    (reward_seq : np.ndarray S) (is_alive_seq : option (np.ndarray S))
    (prev_memories : option (list (np.ndarray S))) : bool :=
  forallb (fun vn => same_inner (fst vn) (snd vn))
    (combine self.(observations) observation_sequences)
  && forallb (fun vn => same_inner (fst vn) (snd vn))
       (combine self.(actions) action_sequences)
  && same_inner self.(rewards) reward_seq
  && match is_alive_seq with
     | Some alive => same_inner self.(is_alive) alive
     | None => true
     end
  && match prev_memories with
     | Some pm =>
         forallb (fun vn => same_inner (fst vn) (snd vn))
           (combine self.(preceding_agent_memories) pm)
     | None => true
     end.

(** Every supplied array holds [k] sessions. *)
Definition sessions_supplied {S} (k : nat)
    (observation_sequences action_sequences : list (np.ndarray S))
    (reward_seq is_alive_seq : np.ndarray S) (prev_memories : list (np.ndarray S))
  : Prop :=
  Forall (fun a => np.len a = k)
    (observation_sequences ++ action_sequences ++ prev_memories
     ++ [is_alive_seq; reward_seq]).

(** The stored sessions of a variable followed by the new ones. *)
Definition joined {S} (var : shared S) (new : np.ndarray S) : np.ndarray S :=
  {| np.inner := np.inner (get_value var);
     np.rows := np.rows (get_value var) ++ np.rows new |}.

(** What does not change in the life of a pool: the channels with their
    names and dtypes, the shapes recorded at construction. *)
Definition layout {S R} (self : @SessionPoolEnvironment S R)
  : list (string * dtype) * list (string * dtype) * list (string * dtype)
    * (string * dtype) * (string * dtype) * list (list nat) * list (list nat) :=
  let id_of := fun v : shared S => (name v, var_dtype v) in
  (map id_of self.(observations), map id_of self.(actions),
   map id_of self.(preceding_agent_memories),
   id_of self.(rewards), id_of self.(is_alive),
   self.(observation_shapes), self.(action_shapes)).

(** The places of the keys of a dict, in its order. *)
Definition places {S} (d : @OrderedDict S) : list place :=
  map (fun kv => fst (fst kv)) d.

(** The items [get_session_updates] sets, in the order it sets them: the
    variables written by [load_sessions], each with the array supplied for
    it. *)
Definition listed {S R} (self : @SessionPoolEnvironment S R)
    (observation_sequences action_sequences : list (np.ndarray S))
    (reward_seq : np.ndarray S) (is_alive_seq : option (np.ndarray S))
    (prev_memory : option (list (np.ndarray S))) : @OrderedDict S :=
  combine (keys_of ObservationVar self.(observations)) observation_sequences
  ++ combine (keys_of ActionVar self.(actions)) action_sequences
  ++ [((RewardsVar, self.(rewards)), reward_seq)]
  ++ match is_alive_seq with
     | Some alive => [((IsAliveVar, self.(is_alive)), alive)]
     | None => []
     end
  ++ match prev_memory with
     | Some pm => combine (keys_of PrecedingMemoryVar self.(preceding_agent_memories)) pm
     | None => []
     end.

(** The number of axes of the array a variable holds.  A theano variable
    keeps the number of axes it was created with: its [set_value] refuses an
    array of another number of axes. *)
Definition ndim {S} (var : shared S) : nat :=
  length (np.shape (get_value var)).

(** Whether a supplied array has as many axes as the array its variable
    holds. *)
Definition same_rank {S} (var : shared S) (new : np.ndarray S) : bool :=
  ndim var =? length (np.shape new).

(** The number of axes of every stream of a pool. *)
Definition ndims {S R} (self : @SessionPoolEnvironment S R) : list nat :=
  map ndim self.(observations) ++ map ndim self.(actions)
  ++ map ndim self.(preceding_agent_memories)
  ++ [ndim self.(rewards); ndim self.(is_alive)].

Definition ranks_agree {S R} (self : @SessionPoolEnvironment S R)
    (observation_sequences action_sequences : list (np.ndarray S))
    (reward_seq : np.ndarray S) (is_alive_seq : option (np.ndarray S))
    (prev_memories : option (list (np.ndarray S))) : bool :=
  forallb (fun vn => same_rank (fst vn) (snd vn))
    (combine self.(observations) observation_sequences)
  && forallb (fun vn => same_rank (fst vn) (snd vn))
       (combine self.(actions) action_sequences)
  && same_rank self.(rewards) reward_seq
  && match is_alive_seq with
     | Some alive => same_rank self.(is_alive) alive
     | None => true
     end
  && match prev_memories with
     | Some pm =>
         forallb (fun vn => same_rank (fst vn) (snd vn))
           (combine self.(preceding_agent_memories) pm)
     | None => true
     end.

(** * Properties *)

(** ** Results and lists *)

Lemma rmap_ok {A B} (f : A -> result B) (g : A -> B) (xs : list A) :
  (forall x, In x xs -> f x = Ok (g x)) -> rmap f xs = Ok (map g xs).
Proof.
  induction xs as [|x xs IH]; intros Hf; simpl; [reflexivity|].
  rewrite (Hf x (or_introl eq_refl)); simpl.
  rewrite IH by (intros y Hy; apply Hf; right; exact Hy).
  reflexivity.
Qed.

Lemma rmap_length {A B} (f : A -> result B) (xs : list A) (ys : list B) :
  rmap f xs = Ok ys -> length ys = length xs.
Proof.
  revert ys; induction xs as [|x xs IH]; intros ys; simpl.
  - intros [= <-]; reflexivity.
  - destruct (f x) as [y|e]; simpl; [|discriminate].
    destruct (rmap f xs) as [ys'|e]; simpl; [|discriminate].
    intros [= <-]; simpl; f_equal; apply IH; reflexivity.
Qed.

(** A list comprehension raises only what its body raises. *)
Lemma rmap_raise {A B} (f : A -> result B) (xs : list A) (e : exn) :
  rmap f xs = Raise e -> exists x, In x xs /\ f x = Raise e.
Proof.
  induction xs as [|x xs IH]; simpl; [discriminate|].
  destruct (f x) as [y|e'] eqn:Hx; simpl.
  - destruct (rmap f xs) as [ys|e'']; simpl; [discriminate|].
    intros [= ->]. destruct IH as (x' & Hin & Hx'); [reflexivity|].
    exists x'; split; [right; exact Hin|exact Hx'].
  - intros [= ->]. exists x; split; [left; reflexivity|exact Hx].
Qed.

Section PoolFacts.
Context {S : Type} `{Scalar S} {R : Type} `{RandomStreams R}.

Local Notation ndarray := (np.ndarray S).
Local Notation shared := (shared S).
Local Notation SessionPoolEnvironment := (@SessionPoolEnvironment S R).

(** ** Loading *)

Lemma set_each_values (vars : list shared) (seqs : list ndarray) :
  length seqs = length vars ->
  map (@get_value S) (set_each vars seqs)
  = zip_with (fun var seq => np.cast (var_dtype var) seq) vars seqs.
Proof.
  revert seqs; induction vars as [|v vars IH]; intros [|x seqs]; simpl;
    try discriminate; [reflexivity|].
  intros [= Hl]; f_equal; apply IH; exact Hl.
Qed.

Lemma set_each_dtypes (vars : list shared) (seqs : list ndarray) :
  map (@var_dtype S) (set_each vars seqs) = map (@var_dtype S) vars.
Proof.
  revert seqs; induction vars as [|v vars IH]; intros [|x seqs]; simpl; try reflexivity.
  f_equal; apply IH.
Qed.

(** [load_sessions] in one equation: the assertions are its only checks,
    they come before every write, and past them every write happens. *)
Lemma load_sessions_eq (self : SessionPoolEnvironment)
    (obs act : list ndarray) (rew : ndarray) (alive : option ndarray)
    (pm : option (list ndarray)) :
  load_sessions obs act rew alive pm self
  = if counts_agree self obs act pm
    then (Ok tt, loaded self obs act rew alive pm)
    else (Raise AssertionError, self).
Proof.
  unfold load_sessions, counts_agree, loaded, bind, get, assert, ret, raise, modify.
  destruct (length obs =? length (observations self)); simpl; [|reflexivity].
  destruct (length act =? length (actions self)); simpl; [|reflexivity].
  destruct pm as [pm|]; simpl.
  - destruct (length pm =? length (preceding_agent_memories self)); simpl; [|reflexivity].
    destruct alive; reflexivity.
  - destruct alive; reflexivity.
Qed.

(** ** Appending *)

Lemma concatenate_each_length (vars : list shared) (news tensors : list ndarray) :
  length news = length vars ->
  concatenate_each vars news = Ok tensors ->
  length tensors = length vars.
Proof.
  intros Hl Hc. apply rmap_length in Hc. rewrite Hc, length_combine, Hl.
  apply Nat.min_id.
Qed.

(** [append_sessions] in one equation.  Everything that can raise comes
    before the call of [load_sessions]. *)
Lemma append_sessions_eq (self : SessionPoolEnvironment)
    (obs act : list ndarray) (rew : ndarray) (alive : option ndarray)
    (pm : option (list ndarray)) (mps : option Z) :
  append_sessions obs act rew alive pm mps self
  = if counts_agree self obs act pm then
      match concatenated self obs act rew alive pm with
      | Raise e => (Raise e, self)
      | Ok (ots, ats, rt, iat, pms) =>
          match crops ots mps with
          | Raise e => (Raise e, self)
          | Ok true => (Raise (UnboundLocalError "observation_tensor"), self)
          | Ok false =>
              match iat, pms with
              | None, _ => (Raise (UnboundLocalError "is_alive_tensor"), self)
              | Some _, None => (Raise (UnboundLocalError "preceding_memory_states"), self)
              | Some ia, Some ms => load_sessions ots ats rt (Some ia) (Some ms) self
              end
          end
      end
    else (Raise AssertionError, self).
Proof.
  unfold append_sessions, counts_agree, concatenated, crops.
  unfold bind at 1, get at 1, assert, ret, raise.
  destruct (length obs =? length (observations self)); simpl; [|reflexivity].
  unfold bind at 1.
  destruct (length act =? length (actions self)); simpl; [|reflexivity].
  unfold bind at 1.
  unfold bind, lift, read_local, ret, raise.
  destruct pm as [pm0|]; simpl.
  - destruct (length pm0 =? length (preceding_agent_memories self)); simpl; [|reflexivity].
    destruct (concatenate_each (observations self) obs) as [ots|e]; simpl; [|reflexivity].
    destruct (concatenate_each (actions self) act) as [ats|e]; simpl; [|reflexivity].
    destruct (np.concatenate (get_value (rewards self)) rew) as [rt|e]; simpl; [|reflexivity].
    destruct alive as [a|]; simpl.
    + destruct (np.concatenate (get_value (is_alive self)) a) as [iat|e]; simpl; [|reflexivity].
      destruct (concatenate_each (preceding_agent_memories self) pm0) as [ms|e]; simpl;
        [|reflexivity].
      destruct mps as [m|]; simpl; [|reflexivity].
      destruct (getitem ots 0) as [first|e]; simpl; [|reflexivity].
      destruct (Z.of_nat (np.len first) >? m)%Z; reflexivity.
    + destruct (concatenate_each (preceding_agent_memories self) pm0) as [ms|e]; simpl;
        [|reflexivity].
      destruct mps as [m|]; simpl; [|reflexivity].
      destruct (getitem ots 0) as [first|e]; simpl; [|reflexivity].
      destruct (Z.of_nat (np.len first) >? m)%Z; reflexivity.
  - destruct (concatenate_each (observations self) obs) as [ots|e]; simpl; [|reflexivity].
    destruct (concatenate_each (actions self) act) as [ats|e]; simpl; [|reflexivity].
    destruct (np.concatenate (get_value (rewards self)) rew) as [rt|e]; simpl; [|reflexivity].
    destruct alive as [a|]; simpl.
    + destruct (np.concatenate (get_value (is_alive self)) a) as [iat|e]; simpl; [|reflexivity].
      destruct mps as [m|]; simpl; [|reflexivity].
      destruct (getitem ots 0) as [first|e]; simpl; [|reflexivity].
      destruct (Z.of_nat (np.len first) >? m)%Z; reflexivity.
    + destruct mps as [m|]; simpl; [|reflexivity].
      destruct (getitem ots 0) as [first|e]; simpl; [|reflexivity].
      destruct (Z.of_nat (np.len first) >? m)%Z; reflexivity.
Qed.

Lemma counts_disagree (self : SessionPoolEnvironment) (obs act : list ndarray)
    (pm : option (list ndarray)) :
  length obs <> length self.(observations)
  \/ length act <> length self.(actions)
  \/ (exists l, pm = Some l /\ length l <> length self.(preceding_agent_memories)) ->
  counts_agree self obs act pm = false.
Proof.
  unfold counts_agree.
  intros [Ho | [Ha | (l & -> & Hm)]].
  - apply Nat.eqb_neq in Ho; rewrite Ho; reflexivity.
  - apply Nat.eqb_neq in Ha; rewrite Ha, andb_false_r; reflexivity.
  - apply Nat.eqb_neq in Hm; rewrite Hm; apply andb_false_r.
Qed.

(** The arrays [append_sessions] hands to [load_sessions] pass its
    assertions. *)
Lemma concatenated_counts_agree (self : SessionPoolEnvironment)
    (obs act : list ndarray) (rew : ndarray) (alive : option ndarray)
    (pm : option (list ndarray)) ots ats rt iat ms :
  counts_agree self obs act pm = true ->
  concatenated self obs act rew alive pm = Ok (ots, ats, rt, iat, Some ms) ->
  counts_agree self ots ats (Some ms) = true.
Proof.
  unfold counts_agree, concatenated.
  intros Hc Hk.
  apply andb_prop in Hc as [Hc Hm]. apply andb_prop in Hc as [Ho Ha].
  apply Nat.eqb_eq in Ho, Ha.
  destruct (concatenate_each (observations self) obs) as [ots'|] eqn:Eo; simpl in Hk;
    [|discriminate].
  destruct (concatenate_each (actions self) act) as [ats'|] eqn:Ea; simpl in Hk;
    [|discriminate].
  destruct (np.concatenate (get_value (rewards self)) rew); simpl in Hk; [|discriminate].
  destruct (match alive with Some _ => _ | None => _ end); simpl in Hk; [|discriminate].
  destruct pm as [pm0|]; simpl in Hk; [|discriminate].
  destruct (concatenate_each (preceding_agent_memories self) pm0) as [ms'|] eqn:Em;
    simpl in Hk; [|discriminate].
  injection Hk as <- <- _ _ <-.
  apply Nat.eqb_eq in Hm.
  rewrite (concatenate_each_length _ _ Ho Eo), (concatenate_each_length _ _ Ha Ea),
    (concatenate_each_length _ _ Hm Em), !Nat.eqb_refl.
  reflexivity.
Qed.

(** An omitted optional stream leaves its local unbound. *)
Lemma concatenated_omitted (self : SessionPoolEnvironment)
    (obs act : list ndarray) (rew : ndarray) (alive : option ndarray)
    (pm : option (list ndarray)) ots ats rt iat pms :
  concatenated self obs act rew alive pm = Ok (ots, ats, rt, iat, pms) ->
  (alive = None <-> iat = None) /\ (pm = None -> pms = None).
Proof.
  unfold concatenated. intros Hk.
  destruct (concatenate_each (observations self) obs); simpl in Hk; [|discriminate].
  destruct (concatenate_each (actions self) act); simpl in Hk; [|discriminate].
  destruct (np.concatenate (get_value (rewards self)) rew); simpl in Hk; [|discriminate].
  split; [split|]; intros Hnone.
  - subst alive; simpl in Hk.
    destruct (match pm with Some _ => _ | None => _ end); simpl in Hk; [|discriminate].
    injection Hk as _ _ _ <- _; reflexivity.
  - destruct alive as [alv|]; [|reflexivity]. exfalso.
    destruct (np.concatenate (get_value (is_alive self)) alv); simpl in Hk; [|discriminate].
    destruct (match pm with Some _ => _ | None => _ end); simpl in Hk; [|discriminate].
    injection Hk as _ _ _ <- _; discriminate Hnone.
  - subst pm; simpl in Hk.
    destruct (match alive with Some _ => _ | None => _ end); simpl in Hk; [|discriminate].
    injection Hk as _ _ _ _ <-; reflexivity.
Qed.

(** A call of [append_sessions] that raises has written nothing. *)
Lemma append_sessions_raise_unchanged (self : SessionPoolEnvironment)
    (obs act : list ndarray) (rew : ndarray) (alive : option ndarray)
    (pm : option (list ndarray)) (mps : option Z) (e : exn) :
  fst (append_sessions obs act rew alive pm mps self) = Raise e ->
  snd (append_sessions obs act rew alive pm mps self) = self.
Proof.
  rewrite append_sessions_eq.
  destruct (counts_agree self obs act pm); [|reflexivity].
  destruct (concatenated self obs act rew alive pm) as [[[[[ots ats] rt] iat] pms]|];
    [|reflexivity].
  destruct (crops ots mps) as [[|]|]; try reflexivity.
  destruct iat as [ia|]; [|reflexivity].
  destruct pms as [ms|]; [|reflexivity].
  rewrite load_sessions_eq.
  destruct (counts_agree self ots ats (Some ms)); [discriminate|reflexivity].
Qed.

Lemma concatenated_rewards (self : SessionPoolEnvironment)
    (obs act : list ndarray) (rew : ndarray) (alive : option ndarray)
    (pm : option (list ndarray)) ots ats rt iat pms :
  concatenated self obs act rew alive pm = Ok (ots, ats, rt, iat, pms) ->
  np.concatenate (get_value self.(rewards)) rew = Ok rt.
Proof.
  unfold concatenated. intros Hk.
  destruct (concatenate_each (observations self) obs); simpl in Hk; [|discriminate].
  destruct (concatenate_each (actions self) act); simpl in Hk; [|discriminate].
  destruct (np.concatenate (get_value (rewards self)) rew); simpl in Hk; [|discriminate].
  destruct (match alive with Some _ => _ | None => _ end); simpl in Hk; [|discriminate].
  destruct (match pm with Some _ => _ | None => _ end); simpl in Hk; [|discriminate].
  injection Hk as _ _ <- _ _; reflexivity.
Qed.

Lemma concatenate_shape (a b c : ndarray) :
  np.concatenate a b = Ok c ->
  np.len c = np.len a + np.len b /\ np.inner c = np.inner a.
Proof.
  unfold np.concatenate.
  destruct (list_eqb Nat.eqb (np.inner a) (np.inner b)); [|discriminate].
  intros [= <-]. unfold np.len; simpl. rewrite length_app. split; reflexivity.
Qed.

Lemma cast_shape (d : dtype) (a : ndarray) : np.shape (np.cast d a) = np.shape a.
Proof. unfold np.shape, np.cast; simpl. rewrite length_map. reflexivity. Qed.

(** ** Construction *)

Lemma cast_full (d : dtype) (x : S) (n : nat) (dims : list nat) :
  np.cast d (np.full x n dims) = np.full (astype d x) n dims.
Proof. unfold np.cast, np.full; simpl. rewrite !map_repeat. reflexivity. Qed.

Lemma map_const_repeat {A B} (b : B) (xs : list A) :
  map (fun _ => b) xs = repeat b (length xs).
Proof. induction xs as [|x xs IH]; simpl; [|rewrite IH]; reflexivity. Qed.

Lemma map_enumerate {A B} (g : A -> B) (f : nat * A -> B) (xs : list A) :
  (forall i x, f (i, x) = g x) ->
  map f (enumerate xs) = map g xs.
Proof.
  intros Hf. unfold enumerate. generalize 0 as start.
  induction xs as [|x xs IH]; intros start; simpl; [reflexivity|].
  rewrite Hf, IH. reflexivity.
Qed.

(** ** Selecting *)

Lemma py_index_in_range (n : nat) (i : Z) :
  (- Z.of_nat n <= i < Z.of_nat n)%Z ->
  py_index n i = Ok (Z.to_nat (i mod Z.of_nat n)).
Proof.
  intros Hi. unfold py_index.
  destruct (Z.ltb_spec i 0) as [Hneg|Hpos].
  - replace ((0 <=? i)%Z) with false by (symmetry; apply Z.leb_gt; exact Hneg).
    simpl.
    replace ((- Z.of_nat n <=? i)%Z) with true by (symmetry; apply Z.leb_le; lia).
    simpl. do 2 f_equal.
    apply (Z.mod_unique_pos _ _ (-1)); lia.
  - replace ((0 <=? i)%Z) with true by (symmetry; apply Z.leb_le; exact Hpos).
    replace ((i <? Z.of_nat n)%Z) with true by (symmetry; apply Z.ltb_lt; lia).
    simpl. do 2 f_equal. symmetry. apply Z.mod_small. lia.
Qed.

Lemma py_index_out_of_range (n : nat) (i : Z) :
  ~ (- Z.of_nat n <= i < Z.of_nat n)%Z -> py_index n i = Raise IndexError.
Proof.
  intros Hi. unfold py_index.
  destruct (Z.leb_spec 0 i), (Z.ltb_spec i (Z.of_nat n)), (Z.leb_spec (- Z.of_nat n) i),
    (Z.ltb_spec i 0); simpl; try reflexivity; lia.
Qed.

Lemma py_index_raise (n : nat) (i : Z) (e : exn) :
  py_index n i = Raise e -> e = IndexError.
Proof.
  unfold py_index.
  destruct (_ && _); [discriminate|]. destruct (_ && _); [discriminate|].
  intros [= <-]; reflexivity.
Qed.

Lemma take_in_range (a : ndarray) (selector : list Z) :
  Forall (fun i => - Z.of_nat (np.len a) <= i < Z.of_nat (np.len a))%Z selector ->
  np.take a selector = Ok (gathered a selector).
Proof.
  intros Hsel. unfold np.take, gathered.
  rewrite (rmap_ok _ (row_at a)); [reflexivity|].
  intros i Hi. rewrite Forall_forall in Hsel.
  rewrite (py_index_in_range _ (Hsel i Hi)). reflexivity.
Qed.

Lemma take_raise (a : ndarray) (selector : list Z) (e : exn) :
  np.take a selector = Raise e -> e = IndexError.
Proof.
  unfold np.take.
  destruct (rmap _ selector) as [rs|e'] eqn:Hr; simpl; [discriminate|].
  intros [= <-]. apply rmap_raise in Hr as (i & _ & Hi).
  destruct (py_index (np.len a) i) eqn:Hp; simpl in Hi; [discriminate|].
  injection Hi as <-. exact (py_index_raise _ _ Hp).
Qed.

Lemma take_out_of_range (a : ndarray) (selector : list Z) :
  Exists (fun i => ~ (- Z.of_nat (np.len a) <= i < Z.of_nat (np.len a))%Z) selector ->
  np.take a selector = Raise IndexError.
Proof.
  intros Hbad.
  destruct (np.take a selector) as [b|e] eqn:Ht.
  - exfalso. unfold np.take in Ht.
    destruct (rmap _ selector) as [rs|] eqn:Hr; simpl in Ht; [|discriminate].
    clear Ht. revert rs Hr.
    induction Hbad as [i sel Hi|i sel _ IH]; intros rs; simpl.
    + rewrite (py_index_out_of_range _ Hi). discriminate.
    + destruct (py_index (np.len a) i); simpl; [|discriminate].
      destruct (rmap _ sel) as [rs'|]; simpl; [|discriminate].
      intros _. exact (IH rs' eq_refl).
  - f_equal. exact (take_raise _ _ Ht).
Qed.

Lemma take_each_in_range (vars : list shared) (selector : list Z) (n : nat) :
  Forall (fun v => np.len (get_value v) = n) vars ->
  Forall (fun i => - Z.of_nat n <= i < Z.of_nat n)%Z selector ->
  take_each vars selector = Ok (map (fun v => gathered (get_value v) selector) vars).
Proof.
  intros Hn Hsel. unfold take_each. apply rmap_ok.
  intros v Hv. rewrite Forall_forall in Hn.
  apply take_in_range. rewrite (Hn v Hv). exact Hsel.
Qed.

Lemma take_each_raise (vars : list shared) (selector : list Z) (e : exn) :
  take_each vars selector = Raise e -> e = IndexError.
Proof.
  intros Hr. apply rmap_raise in Hr as (v & _ & Hv). exact (take_raise _ _ Hv).
Qed.

(** On a pool whose streams all have [pool_size] sessions, in-range indices
    select the gathered rows of every stream. *)
Lemma select_session_batch_in_range (self : SessionPoolEnvironment) (selector : list Z) :
  consistent self ->
  Forall (fun i => - Z.of_nat (pool_size self) <= i < Z.of_nat (pool_size self))%Z
    selector ->
  select_session_batch selector self
  = (Ok {| batch_observations :=
             map (fun v => gathered (get_value v) selector) self.(observations);
           batch_observation_shapes := self.(observation_shapes);
           batch_actions :=
             map (fun v => gathered (get_value v) selector) self.(actions);
           batch_action_shapes := self.(action_shapes);
           batch_rewards := gathered (get_value self.(rewards)) selector;
           batch_is_alive := gathered (get_value self.(is_alive)) selector;
           batch_preceding_agent_memories :=
             map (fun v => gathered (get_value v) selector)
               self.(preceding_agent_memories) |},
     self).
Proof.
  intros Hcons Hsel. unfold consistent in Hcons.
  apply Forall_app in Hcons as [Hobs Hcons].
  apply Forall_app in Hcons as [Hact Hcons].
  apply Forall_app in Hcons as [Hmem Halive].
  apply Forall_inv in Halive.
  unfold select_session_batch, bind, get, lift, ret.
  rewrite (take_each_in_range Hobs Hsel), (take_each_in_range Hact Hsel),
    (take_each_in_range Hmem Hsel).
  rewrite (take_in_range (get_value (rewards self))) by exact Hsel.
  rewrite (take_in_range (get_value (is_alive self))) by (rewrite Halive; exact Hsel).
  reflexivity.
Qed.

(** An index out of range makes the selection raise: if no earlier stream
    raises, the rewards do, and nothing else than an index error is raised. *)
Lemma select_session_batch_out_of_range (self : SessionPoolEnvironment)
    (selector : list Z) :
  Exists (fun i => ~ (- Z.of_nat (pool_size self) <= i < Z.of_nat (pool_size self))%Z)
    selector ->
  select_session_batch selector self = (Raise IndexError, self).
Proof.
  intros Hbad.
  unfold select_session_batch, bind, get, lift, ret.
  destruct (take_each (observations self) selector) eqn:Ho;
    [|rewrite (take_each_raise _ _ Ho); reflexivity].
  destruct (take_each (actions self) selector) eqn:Ha;
    [|rewrite (take_each_raise _ _ Ha); reflexivity].
  destruct (take_each (preceding_agent_memories self) selector) eqn:Hm;
    [|rewrite (take_each_raise _ _ Hm); reflexivity].
  rewrite (take_out_of_range (get_value (rewards self))) by exact Hbad.
  reflexivity.
Qed.

Lemma list_eqb_eq (xs ys : list nat) : list_eqb Nat.eqb xs ys = true -> xs = ys.
Proof.
  revert ys; induction xs as [|x xs IH]; intros [|y ys]; simpl; try discriminate;
    [reflexivity|].
  intros Hxy. apply andb_prop in Hxy as [Hx Hrest].
  apply Nat.eqb_eq in Hx. rewrite Hx, (IH _ Hrest). reflexivity.
Qed.

Lemma getitem_shape_1 (n m : nat) (dims : list nat) :
  getitem (n :: dims) 1 = getitem (m :: dims) 1.
Proof.
  unfold getitem.
  replace (length (m :: dims)) with (length (n :: dims)) by reflexivity.
  destruct (py_index (length (n :: dims)) 1) as [k|e] eqn:Hk; [|reflexivity].
  unfold py_index in Hk; simpl in Hk.
  destruct (_ <? _)%Z; simpl in Hk; [|discriminate].
  injection Hk as <-. reflexivity.
Qed.

Lemma getitem_second {A} (x y : A) (rest : list A) : getitem (x :: y :: rest) 1 = Ok y.
Proof.
  unfold getitem, py_index.
  destruct (Z.ltb_spec 1 (Z.of_nat (length (x :: y :: rest)))) as [_|Hlen];
    [reflexivity|].
  simpl length in Hlen. lia.
Qed.

Lemma loaded_pool_size (self : SessionPoolEnvironment) (obs act : list ndarray)
    (rew : ndarray) (alive : option ndarray) (pm : option (list ndarray)) :
  pool_size (loaded self obs act rew alive pm) = np.len rew.
Proof.
  unfold pool_size, loaded; cbn [rewards set_shared get_value].
  rewrite cast_shape. reflexivity.
Qed.

Lemma loaded_sequence_length (self : SessionPoolEnvironment) (obs act : list ndarray)
    (rew : ndarray) (alive : option ndarray) (pm : option (list ndarray)) :
  sequence_length (loaded self obs act rew alive pm) = getitem (np.shape rew) 1.
Proof.
  unfold sequence_length, loaded; cbn [rewards set_shared get_value].
  rewrite cast_shape. reflexivity.
Qed.

(** ** The padded view *)

Lemma rmap_map {A B C} (g : A -> B) (f : B -> result C) (xs : list A) :
  rmap f (map g xs) = rmap (fun x => f (g x)) xs.
Proof.
  induction xs as [|x xs IH]; simpl; [reflexivity|]. rewrite IH. reflexivity.
Qed.

Lemma list_eqb_refl (xs : list nat) : list_eqb Nat.eqb xs xs = true.
Proof.
  induction xs as [|x xs IH]; simpl; [reflexivity|].
  rewrite Nat.eqb_refl, IH. reflexivity.
Qed.

Lemma zip_with_map_r {A B C} (f : A -> B -> C) (g : A -> B) (xs : list A) :
  zip_with f xs (map g xs) = map (fun x => f x (g x)) xs.
Proof.
  induction xs as [|x xs IH]; simpl; [reflexivity|]. rewrite IH. reflexivity.
Qed.

Lemma combine_map {A B A' B'} (f : A -> A') (g : B -> B') (xs : list A) (ys : list B) :
  combine (map f xs) (map g ys) = map (fun xy => (f (fst xy), g (snd xy))) (combine xs ys).
Proof.
  revert ys; induction xs as [|x xs IH]; intros [|y ys]; simpl; try reflexivity.
  rewrite IH. reflexivity.
Qed.

Lemma py_index_nonneg (n : nat) (i : Z) :
  (0 <= i < Z.of_nat n)%Z -> py_index n i = Ok (Z.to_nat i).
Proof.
  intros [Hlo Hhi]. unfold py_index.
  apply Z.leb_le in Hlo. apply Z.ltb_lt in Hhi. rewrite Hlo, Hhi. reflexivity.
Qed.

(** A tick inside the stream is the same tick of the padded row. *)
Lemma cell_app_inside (c T t : nat) (row pad : list S) :
  length row = T * c -> t < T -> np.cell c (row ++ pad) t = np.cell c row t.
Proof.
  intros Hlen Ht. unfold np.cell.
  rewrite skipn_app, firstn_app, length_skipn.
  replace (t * c - length row) with 0 by nia.
  replace (c - (length row - t * c)) with 0 by nia.
  simpl. apply app_nil_r.
Qed.

(** The tick past the end of the stream is the padding. *)
Lemma cell_app_end (c T : nat) (row pad : list S) :
  length row = T * c -> length pad = c -> np.cell c (row ++ pad) T = pad.
Proof.
  intros Hlen Hpad. unfold np.cell.
  rewrite skipn_app, <- Hlen, skipn_all, Nat.sub_diag. simpl.
  rewrite <- Hpad. apply firstn_all.
Qed.

Lemma wf_row (a : ndarray) (p : nat) :
  np.wf a -> p < np.len a -> length (nth p (np.rows a) []) = np.size (np.inner a).
Proof.
  intros Hwf Hp. unfold np.wf in Hwf. rewrite Forall_forall in Hwf.
  apply Hwf, nth_In, Hp.
Qed.

(** The expression of [padded_observations] evaluates, on a stream with a
    time axis that is not empty, to the stream with one more tick. *)
Lemma padded_one_more_tick (a : ndarray) (T : nat) (c : list nat) :
  np.wf a -> np.inner a = T :: c -> 0 < T ->
  (tick0 <~ np.first_tick a ;;
   np.concatenate1 a (np.zeros_like (insert_dim1 tick0)))%result
  = Ok (one_more_tick a).
Proof.
  intros Hwf Hinner HT.
  unfold np.first_tick, one_more_tick. rewrite Hinner.
  replace (T =? 0) with false by (symmetry; apply Nat.eqb_neq; lia).
  simpl. unfold np.concatenate1, np.zeros_like, insert_dim1, np.len; simpl.
  rewrite Hinner, list_eqb_refl, !length_map, Nat.eqb_refl. simpl.
  do 2 f_equal.
  rewrite map_map, zip_with_map_r.
  apply map_ext_in. intros r Hr. f_equal.
  rewrite map_const_repeat. f_equal.
  unfold np.wf in Hwf. rewrite Forall_forall in Hwf. specialize (Hwf r Hr).
  rewrite Hinner in Hwf. simpl in Hwf.
  unfold np.cell. simpl. rewrite length_firstn. nia.
Qed.

Lemma one_more_tick_at2 (a : ndarray) (T : nat) (c : list nat) (p : nat) :
  np.wf a -> np.inner a = T :: c -> p < np.len a ->
  (forall t, t < T -> at2 (one_more_tick a) p t = at2 a p t)
  /\ at2 (one_more_tick a) p T = repeat zero (np.size c).
Proof.
  intros Hwf Hinner Hp.
  pose proof (wf_row Hwf Hp) as Hrow. rewrite Hinner in Hrow. simpl in Hrow.
  unfold at2, one_more_tick. rewrite Hinner. simpl.
  rewrite (nth_indep _ [] ([] ++ repeat zero (np.size c)))
    by (rewrite length_map; exact Hp).
  rewrite (map_nth (fun r => r ++ repeat zero (np.size c))).
  split.
  - intros t Ht. apply cell_app_inside with (T := T); assumption.
  - apply cell_app_end; [exact Hrow|apply repeat_length].
Qed.

(** [padded[batch_range, time_i + 1]] when the batch fits in the pool and
    the time indices are ticks of the stream. *)
Lemma index2_lookahead (pad : ndarray) (T1 : nat) (c : list nat) (time_i : list Z) :
  np.inner pad = T1 :: c ->
  length time_i <= np.len pad ->
  Forall (fun t => 0 <= t + 1 < Z.of_nat T1)%Z time_i ->
  np.index2 pad (map Z.of_nat (seq 0 (length time_i))) (map (fun t => t + 1)%Z time_i)
  = Ok (lookahead pad time_i).
Proof.
  intros Hinner Hfit Hts.
  unfold np.index2, lookahead. rewrite Hinner. simpl.
  rewrite combine_map, rmap_map.
  erewrite rmap_ok; [unfold enumerate, at2; rewrite Hinner; reflexivity|].
  intros [b t] Hbt; simpl.
  pose proof (in_combine_l _ _ _ _ Hbt) as Hb. apply in_seq in Hb.
  pose proof (in_combine_r _ _ _ _ Hbt) as Ht.
  rewrite Forall_forall in Hts. specialize (Hts t Ht).
  rewrite (@py_index_nonneg (np.len pad)) by lia.
  rewrite (@py_index_nonneg T1) by lia.
  simpl. rewrite Nat2Z.id. reflexivity.
Qed.

Lemma length_combine_seq {A} (xs : list A) :
  length (enumerate xs) = length xs.
Proof. unfold enumerate. rewrite length_combine, length_seq. apply Nat.min_id. Qed.

End PoolFacts.

Unset Implicit Arguments.

Open Scope string_scope.
Open Scope list_scope.
Open Scope nat_scope.

(** ** Channel counts (C7) *)

(** C7.  A call of [load_sessions] or of [append_sessions] that supplies a
    number of observation, action or memory arrays other than the number of
    channels of the pool raises the assertion error, and the pool it leaves is
    the pool it found: no stream has been written. *)
Theorem channel_count_mismatch_raises_unchanged
    {S R : Type} `{Scalar S} `{RandomStreams R}
    (self : @SessionPoolEnvironment S R) (obs act : list (np.ndarray S))
    (rew : np.ndarray S) (alive : option (np.ndarray S))
    (pm : option (list (np.ndarray S))) (mps : option Z) :
  length obs <> length self.(observations)
  \/ length act <> length self.(actions)
  \/ (exists l, pm = Some l /\ length l <> length self.(preceding_agent_memories)) ->
  load_sessions obs act rew alive pm self = (Raise AssertionError, self)
  /\ append_sessions obs act rew alive pm mps self = (Raise AssertionError, self).
Proof.
  intros Hbad. apply counts_disagree in Hbad.
  rewrite load_sessions_eq, append_sessions_eq, Hbad. split; reflexivity.
Qed.

Lemma channel_count_mismatch_witness :
  load_sessions [] [sessions_flat 1 2] (sessions_flat 1 2) None None fresh_pool
  = (Raise AssertionError, fresh_pool)
  /\ append_sessions [] [sessions_flat 1 2] (sessions_flat 1 2) None None (Some 3%Z)
       fresh_pool
     = (Raise AssertionError, fresh_pool).
Proof.
  apply (channel_count_mismatch_raises_unchanged fresh_pool [] [sessions_flat 1 2]
           (sessions_flat 1 2) None None (Some 3%Z)).
  left. simpl. discriminate.
Defined.

(** ** Loading validates counts, not shapes (C2) *)

(** C2, the claim as stated fails: three observation sessions loaded together
    with two sessions of actions and rewards are accepted, and the pool then
    holds streams of different pool extents. *)
Lemma load_sessions_accepts_inconsistent_shapes :
  let obs := sessions_obs 7 3 in
  let act := sessions_flat 1 2 in
  let rew := sessions_flat 1 2 in
  let out := load_sessions [obs] [act] rew None None fresh_pool in
  np.shape obs = [3; 5; 2] /\ np.shape rew = [2; 5]
  /\ fst out = Ok tt
  /\ map (fun v => np.shape (get_value v)) (snd out).(observations) = [[3; 5; 2]]
  /\ np.shape (get_value (snd out).(rewards)) = [2; 5]
  /\ np.shape (get_value (snd out).(is_alive)) = [10; 5].
Proof. vm_compute. repeat split. Qed.

Lemma set_shared_ndim {S} `{Scalar S} (var : shared S) (new : np.ndarray S) :
  same_rank var new = true -> ndim (set_shared var new) = ndim var.
Proof.
  unfold same_rank, ndim, set_shared, np.shape, np.cast. simpl.
  intros Hr. apply Nat.eqb_eq in Hr. simpl in Hr. lia.
Qed.

Lemma set_each_ndim {S} `{Scalar S} (vars : list (shared S))
    (seqs : list (np.ndarray S)) :
  forallb (fun vn => same_rank (fst vn) (snd vn)) (combine vars seqs) = true ->
  map ndim (set_each vars seqs) = map ndim vars.
Proof.
  revert seqs; induction vars as [|v vars IH]; intros [|x seqs]; simpl;
    try reflexivity.
  intros Hr. apply andb_prop in Hr as [Hv Hr].
  rewrite (set_shared_ndim v x Hv), (IH seqs Hr). reflexivity.
Qed.

(** C2, amended.  [load_sessions] validates the channel counts before it
    writes anything, and validates no shape.  A call whose counts disagree
    raises the assertion error and leaves the pool as it was.  A call whose
    counts agree, and whose arrays each have as many axes as the stream they are
    written to, is accepted whatever the extents of the arrays (arrays that
    disagree on their number of sessions or of ticks are not rejected): it
    replaces every supplied stream by the array supplied for it, cast to the
    dtype of the stream, and every stream keeps its number of axes.  Nothing
    is said of a load that fails in the middle of its writes: the method has
    no check and no rollback there. *)
Theorem load_sessions_validates_counts_only
    {S R : Type} `{Scalar S} `{RandomStreams R}
    (self : @SessionPoolEnvironment S R) (obs act : list (np.ndarray S))
    (rew : np.ndarray S) (alive : option (np.ndarray S))
    (pm : option (list (np.ndarray S))) :
  (counts_agree self obs act pm = false ->
   load_sessions obs act rew alive pm self = (Raise AssertionError, self))
  /\ (counts_agree self obs act pm = true ->
      ranks_agree self obs act rew alive pm = true ->
      load_sessions obs act rew alive pm self = (Ok tt, loaded self obs act rew alive pm)
      /\ ndims (loaded self obs act rew alive pm) = ndims self).
Proof.
  rewrite load_sessions_eq.
  destruct (counts_agree self obs act pm); split; intros Hc; try discriminate Hc;
    [|reflexivity].
  - intros Hr. split; [reflexivity|].
    unfold ranks_agree in Hr.
    apply andb_prop in Hr as [Hr Hm]. apply andb_prop in Hr as [Hr Hl].
    apply andb_prop in Hr as [Hr Hw]. apply andb_prop in Hr as [Ho Ha].
    unfold ndims, loaded; cbn [observations actions preceding_agent_memories
                                rewards is_alive].
    rewrite (set_each_ndim _ obs Ho), (set_each_ndim _ act Ha),
      (set_shared_ndim _ rew Hw).
    do 2 f_equal. f_equal.
    + destruct pm as [l|]; [apply set_each_ndim; exact Hm|reflexivity].
    + do 2 f_equal. destruct alive as [a|]; [apply set_shared_ndim; exact Hl|reflexivity].
Qed.

(** Three observation sessions with two sessions of actions and rewards, and
    no observation array at all. *)
Lemma load_sessions_validates_counts_only_witness :
  (load_sessions [sessions_obs 7 3] [sessions_flat 1 2] (sessions_flat 1 2) None None
     fresh_pool
   = (Ok tt,
      loaded fresh_pool [sessions_obs 7 3] [sessions_flat 1 2] (sessions_flat 1 2)
        None None)
   /\ ndims (loaded fresh_pool [sessions_obs 7 3] [sessions_flat 1 2]
               (sessions_flat 1 2) None None)
      = ndims fresh_pool)
  /\ load_sessions [] [sessions_flat 1 2] (sessions_flat 1 2) None None fresh_pool
     = (Raise AssertionError, fresh_pool).
Proof.
  split.
  - apply (proj2 (load_sessions_validates_counts_only fresh_pool [sessions_obs 7 3]
                    [sessions_flat 1 2] (sessions_flat 1 2) None None));
      reflexivity.
  - apply (proj1 (load_sessions_validates_counts_only fresh_pool []
                    [sessions_flat 1 2] (sessions_flat 1 2) None None)).
    reflexivity.
Defined.

(** ** Round trip of a load (C6) *)

(** C6.  After a [load_sessions] whose arrays are as many as the channels,
    every stream reads back as the array supplied for it, cast to the dtype of
    the stream: the observation and action channels in order, the rewards, and
    the liveness and the memories when they were supplied (they are left as
    they were when omitted).  The dtypes themselves do not change. *)
Theorem load_sessions_round_trip
    {S R : Type} `{Scalar S} `{RandomStreams R}
    (self : @SessionPoolEnvironment S R) (obs act : list (np.ndarray S))
    (rew : np.ndarray S) (alive : option (np.ndarray S))
    (pm : option (list (np.ndarray S))) :
  length obs = length self.(observations) ->
  length act = length self.(actions) ->
  (forall l, pm = Some l -> length l = length self.(preceding_agent_memories)) ->
  let cast_to := fun var seq => np.cast (var_dtype var) seq in
  exists self',
    load_sessions obs act rew alive pm self = (Ok tt, self')
    /\ map (@get_value S) self'.(observations) = zip_with cast_to self.(observations) obs
    /\ map (@get_value S) self'.(actions) = zip_with cast_to self.(actions) act
    /\ get_value self'.(rewards) = cast_to self.(rewards) rew
    /\ match alive with
       | Some a => get_value self'.(is_alive) = cast_to self.(is_alive) a
       | None => self'.(is_alive) = self.(is_alive)
       end
    /\ match pm with
       | Some l =>
           map (@get_value S) self'.(preceding_agent_memories)
           = zip_with cast_to self.(preceding_agent_memories) l
       | None => self'.(preceding_agent_memories) = self.(preceding_agent_memories)
       end
    /\ map (@var_dtype S) self'.(observations) = map (@var_dtype S) self.(observations)
    /\ map (@var_dtype S) self'.(actions) = map (@var_dtype S) self.(actions)
    /\ var_dtype self'.(rewards) = var_dtype self.(rewards).
Proof.
  intros Ho Ha Hm cast_to.
  exists (loaded self obs act rew alive pm).
  rewrite load_sessions_eq.
  assert (Hc : counts_agree self obs act pm = true).
  { unfold counts_agree. rewrite Ho, Ha, !Nat.eqb_refl. simpl.
    destruct pm as [l|]; [|reflexivity].
    rewrite (Hm l eq_refl). apply Nat.eqb_refl. }
  rewrite Hc. unfold loaded; simpl.
  split; [reflexivity|].
  split; [apply set_each_values; exact Ho|].
  split; [apply set_each_values; exact Ha|].
  split; [reflexivity|].
  split; [destruct alive; reflexivity|].
  split; [destruct pm as [l|]; [apply set_each_values, Hm|]; reflexivity|].
  split; [apply set_each_dtypes|].
  split; [apply set_each_dtypes|reflexivity].
Qed.

Lemma load_sessions_round_trip_witness :
  exists self',
    load_sessions [sessions_obs 300 3] [sessions_flat (-1) 3] (sessions_flat 2 3)
      (Some (sessions_flat 257 3)) None fresh_pool = (Ok tt, self')
    /\ map (@get_value Z) self'.(observations) = [sessions_obs 300 3]
    /\ map (@get_value Z) self'.(actions) = [sessions_flat (-1) 3]
    /\ get_value self'.(rewards) = sessions_flat 2 3
    /\ get_value self'.(is_alive) = sessions_flat 1 3
    /\ self'.(preceding_agent_memories) = fresh_pool.(preceding_agent_memories).
Proof.
  destruct (load_sessions_round_trip fresh_pool [sessions_obs 300 3]
              [sessions_flat (-1) 3] (sessions_flat 2 3) (Some (sessions_flat 257 3)) None)
    as (self' & Hrun & Hobs & Hact & Hrew & Halive & Hmem & _).
  - reflexivity.
  - reflexivity.
  - discriminate.
  - exists self'. repeat split; assumption.
Defined.

(** ** The crop branch of an append (C1) *)

(** C1.  The docstring of [append_sessions] promises that only the last
    [max_pool_size] sessions are kept.  The code does not get there: whenever
    the concatenated pool is longer than [max_pool_size], the crop branch reads
    the local [observation_tensor], which no statement has assigned (the
    concatenation is called [observation_tensors]); the call raises and the
    pool keeps its old sessions, the new ones not appended and none
    evicted. *)
Theorem append_sessions_crop_raises
    {S R : Type} `{Scalar S} `{RandomStreams R}
    (self : @SessionPoolEnvironment S R) (obs act : list (np.ndarray S))
    (rew : np.ndarray S) (alive : option (np.ndarray S))
    (pm : option (list (np.ndarray S))) (m : Z)
    ots ats rt iat pms :
  counts_agree self obs act pm = true ->
  concatenated self obs act rew alive pm = Ok (ots, ats, rt, iat, pms) ->
  crops ots (Some m) = Ok true ->
  append_sessions obs act rew alive pm (Some m) self
  = (Raise (UnboundLocalError "observation_tensor"), self).
Proof.
  intros Hc Hk Hcrop.
  rewrite append_sessions_eq, Hc, Hk, Hcrop. reflexivity.
Qed.

(** On a pool holding exactly the two sessions [A], appending one session [B]
    with [max_pool_size = 2] raises, and the pool still holds [A]. *)
Lemma append_sessions_crop_raises_witness :
  map (@get_value Z) pool_A.(observations) = [sessions_obs 1 2]
  /\ get_value pool_A.(rewards) = sessions_flat 1 2
  /\ append_sessions [sessions_obs 2 1] [sessions_flat 2 1] (sessions_flat 2 1)
       (Some (sessions_flat 1 1)) (Some [sessions_flat 2 1]) (Some 2%Z) pool_A
     = (Raise (UnboundLocalError "observation_tensor"), pool_A).
Proof.
  split; [reflexivity|]. split; [reflexivity|].
  eapply (append_sessions_crop_raises pool_A [sessions_obs 2 1] [sessions_flat 2 1]
            (sessions_flat 2 1) (Some (sessions_flat 1 1)) (Some [sessions_flat 2 1]) 2%Z).
  - reflexivity.
  - vm_compute. reflexivity.
  - reflexivity.
Defined.

(** ** Appending with an omitted optional stream (C10) *)

(** C10, the claim as stated fails: a call that omits [is_alive] and supplies
    no observation array to a pool of one observation channel stops at the
    first assertion, with an assertion error and not with an unbound local. *)
Lemma append_sessions_omitted_assertion_first :
  fst (append_sessions [] [sessions_flat 1 2] (sessions_flat 1 2) None None None
         fresh_pool)
  = Raise AssertionError
  /\ ~ (exists nm,
          fst (append_sessions [] [sessions_flat 1 2] (sessions_flat 1 2) None None None
                 fresh_pool)
          = Raise (UnboundLocalError nm)).
Proof.
  split; [reflexivity|].
  intros (nm & Hnm). vm_compute in Hnm. discriminate Hnm.
Qed.

(** C10, amended.  A call of [append_sessions] that omits [is_alive] or
    [prev_memories] always raises and leaves the pool as it was, for it raises
    before [load_sessions] is called.  When the channel counts agree and the
    concatenations succeed, what it raises is the unbound local: already
    [observation_tensor] in the crop branch when [max_pool_size] is exceeded,
    and otherwise, at the call of [load_sessions], [is_alive_tensor] if
    [is_alive] was omitted and [preceding_memory_states] if not. *)
Theorem append_sessions_omitted_stream_raises
    {S R : Type} `{Scalar S} `{RandomStreams R}
    (self : @SessionPoolEnvironment S R) (obs act : list (np.ndarray S))
    (rew : np.ndarray S) (alive : option (np.ndarray S))
    (pm : option (list (np.ndarray S))) (mps : option Z) :
  alive = None \/ pm = None ->
  exists e,
    append_sessions obs act rew alive pm mps self = (Raise e, self)
    /\ (counts_agree self obs act pm = true ->
        forall ots ats rt iat pms crop,
          concatenated self obs act rew alive pm = Ok (ots, ats, rt, iat, pms) ->
          crops ots mps = Ok crop ->
          e = UnboundLocalError
                (if crop then "observation_tensor"
                 else match alive with
                      | None => "is_alive_tensor"
                      | Some _ => "preceding_memory_states"
                      end)).
Proof.
  intros Homit.
  rewrite append_sessions_eq.
  destruct (counts_agree self obs act pm).
  2:{ exists AssertionError. split; [reflexivity|discriminate]. }
  destruct (concatenated self obs act rew alive pm)
    as [[[[[ots ats] rt] iat] pms]|e] eqn:Hk.
  2:{ exists e. split; [reflexivity|]. intros _ * Hno; discriminate Hno. }
  destruct (concatenated_omitted _ _ _ _ _ _ Hk) as [Hia Hpm].
  destruct (crops ots mps) as [[|]|e] eqn:Hcrop.
  - eexists. split; [reflexivity|].
    intros _ * [= <- _ _ _ _]. rewrite Hcrop. intros [= <-]. reflexivity.
  - destruct alive as [a|].
    + destruct Homit as [Homit|Homit]; [discriminate|].
      rewrite (Hpm Homit).
      destruct iat as [ia|]; [|destruct Hia as [_ Hia]; discriminate (Hia eq_refl)].
      eexists. split; [reflexivity|].
      intros _ * [= <- _ _ _ _]. rewrite Hcrop. intros [= <-]. reflexivity.
    + rewrite (proj1 Hia eq_refl).
      eexists. split; [reflexivity|].
      intros _ * [= <- _ _ _ _]. rewrite Hcrop. intros [= <-]. reflexivity.
  - exists e. split; [reflexivity|].
    intros _ * [= <- _ _ _ _]. rewrite Hcrop. discriminate.
Qed.

Lemma append_sessions_omitted_stream_witness :
  append_sessions [sessions_obs 1 1] [sessions_flat 1 1] (sessions_flat 1 1) None
    (Some [sessions_flat 1 1]) None fresh_pool
  = (Raise (UnboundLocalError "is_alive_tensor"), fresh_pool).
Proof.
  destruct (append_sessions_omitted_stream_raises fresh_pool [sessions_obs 1 1]
              [sessions_flat 1 1] (sessions_flat 1 1) None (Some [sessions_flat 1 1]) None
              (or_introl eq_refl)) as (e & Hrun & Hkind).
  rewrite Hrun. f_equal. f_equal.
  eapply (Hkind eq_refl _ _ _ _ _ false).
  - vm_compute. reflexivity.
  - reflexivity.
Defined.

(** ** The placeholders of a new pool (C8) *)

(** C8, the claim as stated fails: the liveness stream of a new pool is
    filled with ones, not with zeros. *)
Lemma new_pool_is_alive_not_zero :
  get_value fresh_pool.(is_alive) = np.ones 10 [5]
  /\ get_value fresh_pool.(is_alive) <> np.zeros 10 [5].
Proof. split; [reflexivity|]. vm_compute. discriminate. Qed.

(** C8, amended.  Right after construction the observation, action, reward
    and memory streams hold zero-filled placeholders of the default shapes: ten
    sessions of five ticks, of two elements per tick for a counted observation
    channel, of one scalar per tick for a counted action channel, of the
    layer's output shape past its first axis for a channel given as a layer; a
    memory has ten rows of five, or of the layer's shape, and no time axis.
    The liveness stream holds ten sessions of five ticks filled with ones
    (cast to uint8). *)
Theorem new_pool_placeholders
    {S R : Type} `{Scalar S} `{RandomStreams R}
    (floatX : dtype) (observations_arg actions_arg agent_memories : channels)
    (default_action_dtype : dtype) (rng_seed : Z) :
  (forall d, astype d zero = zero) ->
  let self : @SessionPoolEnvironment S R :=
    __init__ floatX observations_arg actions_arg agent_memories
      default_action_dtype rng_seed in
  map (@get_value S) self.(observations)
  = match observations_arg with
    | Count n => repeat (np.zeros 10 [5; 2]) (Z.to_nat n)
    | Layers ls => map (fun l => np.zeros 10 (5 :: tl (output_shape l))) ls
    end
  /\ map (@get_value S) self.(actions)
     = match actions_arg with
       | Count n => repeat (np.zeros 10 [5]) (Z.to_nat n)
       | Layers ls => map (fun l => np.zeros 10 (5 :: tl (output_shape l))) ls
       end
  /\ map (@get_value S) self.(preceding_agent_memories)
     = match agent_memories with
       | Count n => repeat (np.zeros 10 [5]) (Z.to_nat n)
       | Layers ls => map (fun l => np.zeros 10 (tl (output_shape l))) ls
       end
  /\ get_value self.(rewards) = np.zeros 10 [5]
  /\ get_value self.(is_alive) = np.full (astype "uint8" one) 10 [5].
Proof.
  intros Hzero self.
  assert (Hz : forall d n dims, np.cast d (np.zeros n dims) = np.zeros (S := S) n dims).
  { intros d n dims. unfold np.zeros. rewrite cast_full, Hzero. reflexivity. }
  assert (Hcount : forall (mk : nat -> shared S) (a : np.ndarray S) (n : Z),
             (forall i, get_value (mk i) = a) ->
             map (@get_value S) (map mk (range n)) = repeat a (Z.to_nat n)).
  { intros mk a n Hmk. rewrite map_map. unfold range.
    rewrite (map_ext _ (fun _ => a)) by exact Hmk.
    rewrite map_const_repeat, length_seq. reflexivity. }
  unfold self, __init__; simpl.
  split; [|split; [|split; [|split]]].
  - destruct observations_arg as [n|ls].
    + apply Hcount. intros i; simpl. apply Hz.
    + rewrite map_map.
      apply map_enumerate. intros i l; simpl. apply Hz.
  - destruct actions_arg as [n|ls].
    + apply Hcount. intros i; simpl. apply Hz.
    + rewrite map_map.
      apply map_enumerate. intros i l; simpl. apply Hz.
  - destruct agent_memories as [n|ls].
    + apply Hcount. intros i; simpl. apply Hz.
    + rewrite map_map.
      apply map_enumerate. intros i l; simpl. apply Hz.
  - apply Hz.
  - unfold np.ones. apply cast_full.
Qed.

Lemma astype_Z_zero (d : dtype) : astype_Z d 0%Z = 0%Z.
Proof.
  unfold astype_Z.
  destruct (String.eqb d "uint8"); [reflexivity|].
  destruct (String.eqb d "int32"); reflexivity.
Qed.

Lemma new_pool_placeholders_witness :
  map (@get_value Z) fresh_pool.(observations) = [np.zeros 10 [5; 2]]
  /\ map (@get_value Z) fresh_pool.(actions) = [np.zeros 10 [5]]
  /\ map (@get_value Z) fresh_pool.(preceding_agent_memories) = [np.zeros 10 [5]]
  /\ get_value fresh_pool.(rewards) = np.zeros 10 [5]
  /\ get_value fresh_pool.(is_alive) = np.full 1%Z 10 [5].
Proof.
  exact (new_pool_placeholders (S := Z) (R := Z) "float32" (Count 1) (Count 1) (Count 1)
           "int32" 1337%Z astype_Z_zero).
Defined.

(** ** Pool size and sequence length (C9) *)

(** C9.  [pool_size], [batch_size] and [sequence_length] are not stored: at
    any time, after any calls of [load_sessions] and [append_sessions], raised
    or not, they are the first and the second extent of the rewards array as
    it then is.  So they follow every write: a load that returns makes them the
    extents of the rewards it was given, an append that returns adds the
    supplied sessions to [pool_size] and keeps [sequence_length], and a call
    that raises changes neither, having written nothing. *)
Theorem pool_size_follows_rewards
    {S R : Type} `{Scalar S} `{RandomStreams R}
    (start : @SessionPoolEnvironment S R) (cs : list (call S)) (c : call S) :
  let self := after cs start in
  let self' := after (cs ++ [c]) start in
  (batch_size self = pool_size self
   /\ np.shape (get_value self.(rewards))
      = pool_size self :: np.inner (get_value self.(rewards))
   /\ sequence_length self = getitem (np.shape (get_value self.(rewards))) 1
   /\ forall T rest,
       np.inner (get_value self.(rewards)) = T :: rest -> sequence_length self = Ok T)
  /\ match fst (perform c self) with
     | Ok _ =>
         pool_size self'
         = match c with
           | Load _ _ _ _ _ => 0
           | Append _ _ _ _ _ _ => pool_size self
           end + np.len (supplied_rewards c)
         /\ sequence_length self' = getitem (np.shape (supplied_rewards c)) 1
     | Raise _ => self' = self
     end.
Proof.
  intros self self'.
  split.
  { repeat split. intros T rest HT.
    unfold sequence_length, np.shape. rewrite HT. apply getitem_second. }
  assert (Hstep : self' = snd (perform c self)).
  { unfold self', self, after. rewrite fold_left_app. reflexivity. }
  rewrite Hstep. clear Hstep self'.
  destruct c as [obs act rew alive pm | obs act rew alive pm mps]; simpl.
  - rewrite load_sessions_eq.
    destruct (counts_agree self obs act pm); cbn [fst snd]; [|reflexivity].
    split; [apply loaded_pool_size|apply loaded_sequence_length].
  - destruct (fst (append_sessions obs act rew alive pm mps self)) eqn:Hfst;
      [|exact (append_sessions_raise_unchanged _ _ _ _ _ _ _ Hfst)].
    revert Hfst. rewrite append_sessions_eq.
    destruct (counts_agree self obs act pm); [|discriminate].
    destruct (concatenated self obs act rew alive pm)
      as [[[[[ots ats] rt] iat] pms]|] eqn:Hk; [|discriminate].
    destruct (crops ots mps) as [[|]|]; try discriminate.
    destruct iat as [ia|]; [|discriminate].
    destruct pms as [ms|]; [|discriminate].
    rewrite load_sessions_eq.
    destruct (counts_agree self ots ats (Some ms)); [|discriminate].
    intros _. cbn [fst snd supplied_rewards].
    rewrite loaded_pool_size, loaded_sequence_length.
    apply concatenated_rewards in Hk.
    pose proof (concatenate_shape _ _ Hk) as [Hlen Hinner].
    unfold np.concatenate in Hk.
    destruct (list_eqb Nat.eqb (np.inner (get_value (rewards self))) (np.inner rew))
      eqn:Hsame; [|discriminate].
    apply list_eqb_eq in Hsame.
    split.
    + exact Hlen.
    + unfold np.shape. rewrite Hinner, Hsame. apply getitem_shape_1.
Qed.

Lemma pool_size_follows_rewards_witness :
  pool_size fresh_pool = 10 /\ sequence_length fresh_pool = Ok 5
  /\ pool_size scenario_pool = 3 /\ sequence_length scenario_pool = Ok 5.
Proof.
  pose proof (pool_size_follows_rewards fresh_pool []
                (Load [three_obs] [three_rows 5 10 11 12] (three_rows 5 1 0 2)
                   (Some (three_rows 5 1 1 1)) (Some [three_rows 5 10 11 12])))
    as [(_ & _ & _ & Hseq) Hload].
  simpl in Hseq, Hload.
  split; [reflexivity|]. split; [exact (Hseq 5 [] eq_refl)|].
  exact Hload.
Defined.

(** ** Selecting a batch (C5) *)

(** C5, the claim as stated fails: an index outside [[0, pool_size)] need not
    make the selection raise.  On the pool of three sessions the selector
    [[-1]] returns the last session. *)
Lemma select_session_batch_negative_index :
  pool_size scenario_pool = 3
  /\ exists batch,
       select_session_batch [(-1)%Z] scenario_pool = (Ok batch, scenario_pool)
       /\ np.rows (batch_rewards batch) = [[2; 2; 2; 2; 2]%Z].
Proof.
  split; [reflexivity|]. eexists. split; [vm_compute; reflexivity|reflexivity].
Qed.

(** C5, amended.  On a pool whose streams all hold [pool_size] sessions, a
    selector whose indices lie in [[-pool_size, pool_size)] returns the batch
    that holds, for every observation, action and memory channel and for the
    rewards and the liveness, the rows gathered in the order of the selector,
    repeated where an index is repeated; an index in [[-pool_size, 0)] counts
    from the end, as Python indices do.  A selector with an index outside
    [[-pool_size, pool_size)] makes the selection raise the index error.  The
    pool is not written in either case. *)
Theorem select_session_batch_gathers
    {S R : Type} `{Scalar S} `{RandomStreams R}
    (self : @SessionPoolEnvironment S R) (selector : list Z) :
  let in_range := fun i =>
    (- Z.of_nat (pool_size self) <= i < Z.of_nat (pool_size self))%Z in
  let gather_each := map (fun v => gathered (get_value v) selector) in
  (consistent self -> Forall in_range selector ->
   select_session_batch selector self
   = (Ok {| batch_observations := gather_each self.(observations);
            batch_observation_shapes := self.(observation_shapes);
            batch_actions := gather_each self.(actions);
            batch_action_shapes := self.(action_shapes);
            batch_rewards := gathered (get_value self.(rewards)) selector;
            batch_is_alive := gathered (get_value self.(is_alive)) selector;
            batch_preceding_agent_memories :=
              gather_each self.(preceding_agent_memories) |},
      self))
  /\ (Exists (fun i => ~ in_range i) selector ->
      select_session_batch selector self = (Raise IndexError, self)).
Proof.
  intros in_range gather_each. split.
  - intros Hcons Hsel. exact (select_session_batch_in_range Hcons Hsel).
  - intros Hbad. exact (select_session_batch_out_of_range _ Hbad).
Qed.

Lemma scenario_pool_consistent : consistent scenario_pool.
Proof. unfold consistent. simpl. repeat constructor. Qed.

(** [select([2, 2, 0])] on the three sessions: twice the last one, then the
    first; and [select([0, 3])] raises. *)
Lemma select_session_batch_gathers_witness :
  (exists batch,
     select_session_batch [2; 2; 0]%Z scenario_pool = (Ok batch, scenario_pool)
     /\ np.rows (batch_rewards batch)
        = [[2; 2; 2; 2; 2]; [2; 2; 2; 2; 2]; [1; 1; 1; 1; 1]]%Z
     /\ map (@np.rows Z) (batch_observations batch)
        = [[repeat 12 10; repeat 12 10; repeat 10 10]]%Z)
  /\ select_session_batch [0; 3]%Z scenario_pool = (Raise IndexError, scenario_pool).
Proof.
  split.
  - eexists. split.
    + apply (proj1 (select_session_batch_gathers scenario_pool [2; 2; 0]%Z)).
      * exact scenario_pool_consistent.
      * repeat constructor; simpl; lia.
    + split; reflexivity.
  - apply (proj2 (select_session_batch_gathers scenario_pool [0; 3]%Z)).
    right. left. simpl. lia.
Defined.

(** ** The padded view and the action-result step (C4) *)

(** C4.  Take a pool whose observation streams are well formed, have [T >= 1]
    ticks and at least as many sessions as the batch has time indices.  Every
    padded observation is the stream with one more tick: [padded[p, t]] is
    [stream[p, t]] for [t < T], and [padded[p, T]] is all zeros.  With time
    indices that are ticks of the stream, [get_action_results] does not raise:
    whatever the actions, it returns the time indices plus one as the new
    state and, for every channel, the rows [padded[b, time_i[b] + 1]]; at the
    last tick [T - 1] these rows are all zeros. *)
Theorem padded_observations_lookahead
    {S R : Type} `{Scalar S} `{RandomStreams R}
    (self : @SessionPoolEnvironment S R) (time_i : list Z)
    (actions_arg : list (np.ndarray S)) (T : nat) :
  0 < T ->
  Forall (fun v => np.wf (get_value v)
                   /\ hd_error (np.inner (get_value v)) = Some T
                   /\ length time_i <= np.len (get_value v))
    self.(observations) ->
  Forall (fun t => 0 <= t < Z.of_nat T)%Z time_i ->
  let padded := fun v : shared S => one_more_tick (get_value v) in
  let cell_size := fun v : shared S => np.size (tl (np.inner (get_value v))) in
  padded_observations self = map (fun v => Ok (padded v)) self.(observations)
  /\ (forall v p, In v self.(observations) -> p < np.len (get_value v) ->
      (forall t, t < T -> at2 (padded v) p t = at2 (get_value v) p t)
      /\ at2 (padded v) p T = repeat zero (cell_size v))
  /\ get_action_results self [time_i] actions_arg
     = Ok ([map (fun t => t + 1)%Z time_i],
           map (fun v => lookahead (padded v) time_i) self.(observations))
  /\ (Forall (fun t => t = Z.of_nat T - 1)%Z time_i ->
      forall v, In v self.(observations) ->
        np.rows (lookahead (padded v) time_i)
        = repeat (repeat zero (cell_size v)) (length time_i)).
Proof.
  intros HT Hobs Hts padded cell_size.
  rewrite Forall_forall in Hobs.
  assert (Hshape : forall v, In v self.(observations) ->
            exists c, np.inner (get_value v) = T :: c).
  { intros v Hv. destruct (Hobs v Hv) as (_ & Hhd & _).
    destruct (np.inner (get_value v)) as [|T' c]; [discriminate|].
    injection Hhd as ->. exists c; reflexivity. }
  assert (Hpadded : padded_observations self
                    = map (fun v => Ok (padded v)) self.(observations)).
  { unfold padded_observations. apply map_ext_in. intros v Hv.
    destruct (Hshape v Hv) as (c & Hc). destruct (Hobs v Hv) as (Hwf & _).
    exact (padded_one_more_tick Hwf Hc HT). }
  assert (Hrule : forall v p, In v self.(observations) -> p < np.len (get_value v) ->
            (forall t, t < T -> at2 (padded v) p t = at2 (get_value v) p t)
            /\ at2 (padded v) p T = repeat zero (cell_size v)).
  { intros v p Hv Hp.
    destruct (Hshape v Hv) as (c & Hc). destruct (Hobs v Hv) as (Hwf & _).
    unfold cell_size. rewrite Hc. exact (one_more_tick_at2 Hwf Hc Hp). }
  split; [exact Hpadded|]. split; [exact Hrule|]. split.
  - unfold get_action_results. rewrite Hpadded.
    replace (getitem [time_i] 0) with (Ok time_i) by reflexivity.
    simpl rbind at 1. rewrite rmap_map.
    erewrite rmap_ok; [reflexivity|].
    intros v Hv. simpl.
    destruct (Hshape v Hv) as (c & Hc). destruct (Hobs v Hv) as (_ & _ & Hfit).
    apply index2_lookahead with (T1 := T + 1) (c := c).
    + unfold padded, one_more_tick. rewrite Hc. reflexivity.
    + unfold padded, one_more_tick, np.len; simpl. rewrite length_map. exact Hfit.
    + eapply Forall_impl; [|exact Hts]. simpl. intros t Ht. lia.
  - intros Hlast v Hv. unfold lookahead; simpl.
    rewrite <- (length_combine_seq time_i), <- map_const_repeat.
    apply map_ext_in. intros [b t] Hbt; simpl.
    pose proof (in_combine_l _ _ _ _ Hbt) as Hb. apply in_seq in Hb.
    pose proof (in_combine_r _ _ _ _ Hbt) as Ht.
    rewrite Forall_forall in Hlast. rewrite (Hlast t Ht).
    replace (Z.to_nat (Z.of_nat T - 1 + 1)) with T by lia.
    destruct (Hobs v Hv) as (_ & _ & Hfit).
    apply Hrule; [exact Hv|lia].
Qed.

Lemma scenario_pool_observations_wf :
  Forall (fun v => np.wf (get_value v)
                   /\ hd_error (np.inner (get_value v)) = Some 5
                   /\ length [0; 1; 4]%Z <= np.len (get_value v))
    scenario_pool.(observations).
Proof.
  repeat constructor; simpl; lia.
Qed.

(** The three sessions at the ticks 0, 1 and 4 (the last tick): the next
    observations are those of the sessions, and zeros for the third. *)
Lemma padded_observations_lookahead_witness :
  get_action_results scenario_pool [[0; 1; 4]%Z] []
  = Ok ([[1; 2; 5]%Z],
        [{| np.inner := [2]; np.rows := [[10; 10]; [11; 11]; [0; 0]]%Z |}]).
Proof.
  destruct (padded_observations_lookahead scenario_pool [0; 1; 4]%Z [] 5)
    as (_ & _ & Hstep & _).
  - lia.
  - exact scenario_pool_observations_wf.
  - repeat constructor; lia.
  - rewrite Hstep. reflexivity.
Defined.

(** ** Sampling a batch (C3) *)

Lemma counter_choice_contract (r : Z) : choice_contract r.
Proof.
  intros n a replace Hn Hcond. simpl. unfold counter_choice.
  replace (n <? 0)%Z with false by (symmetry; apply Z.ltb_ge; exact Hn).
  assert (Hgo : (if replace then (a <=? 0) && (0 <? n) else a <? n)%Z = false).
  { destruct replace.
    - destruct (Z.leb_spec a 0), (Z.ltb_spec 0 n); simpl; try reflexivity. lia.
    - apply Z.ltb_ge. exact Hcond. }
  rewrite Hgo. simpl.
  eexists. split; [reflexivity|].
  assert (Hpos : forall k, In k (seq 0 (Z.to_nat n)) -> (0 < a)%Z).
  { intros k Hk. apply in_seq in Hk. destruct replace; lia. }
  split; [rewrite length_map, length_seq; lia|]. split.
  - apply Forall_forall. intros i Hi. apply in_map_iff in Hi as (k & <- & Hk).
    apply Z.mod_pos_bound. exact (Hpos k Hk).
  - intros ->. apply NoDup_map_NoDup_ForallPairs; [|apply seq_NoDup].
    intros j k Hj Hk Hjk.
    pose proof (Hpos j Hj) as Ha. apply in_seq in Hj, Hk.
    assert (Hmod : ((Z.of_nat j - Z.of_nat k) mod a = 0)%Z).
    { replace (Z.of_nat j - Z.of_nat k)%Z with ((r + Z.of_nat j) - (r + Z.of_nat k))%Z
        by lia.
      rewrite Zminus_mod, Hjk, Z.sub_diag. apply Z.mod_0_l. lia. }
    apply Z.mod_divide in Hmod; [|lia].
    destruct Hmod as (q & Hq).
    assert (q = 0)%Z by nia. lia.
Qed.




(** * Further properties of the methods *)

(** ** Appending, when it returns and when it raises *)

Lemma rmap_Forall2 {A B} (f : A -> result B) (xs : list A) (ys : list B) :
  rmap f xs = Ok ys -> Forall2 (fun x y => f x = Ok y) xs ys.
Proof.
  revert ys; induction xs as [|x xs IH]; intros ys; simpl.
  - intros [= <-]; constructor.
  - destruct (f x) as [y|e] eqn:Hx; simpl; [|discriminate].
    destruct (rmap f xs) as [ys'|e]; simpl; [|discriminate].
    intros [= <-]. constructor; [exact Hx|apply IH; reflexivity].
Qed.

(** A comprehension whose body raises nothing but [e0] raises [e0] as soon
    as its body raises on some element. *)
Lemma rmap_raises {A B} (f : A -> result B) (xs : list A) (e0 : exn) :
  (forall x e, In x xs -> f x = Raise e -> e = e0) ->
  Exists (fun x => f x = Raise e0) xs ->
  rmap f xs = Raise e0.
Proof.
  intros Hkind Hbad.
  destruct (rmap f xs) as [ys|e] eqn:Hr.
  - exfalso. apply rmap_Forall2 in Hr.
    induction Hr as [|x y xs' ys' Hxy _ IH].
    + inversion Hbad.
    + inversion Hbad as [? ? Hx|? ? Hrest]; subst.
      * rewrite Hxy in Hx; discriminate.
      * apply IH; [|exact Hrest]. intros x' e' Hin. apply Hkind; right; exact Hin.
  - apply rmap_raise in Hr as (x & Hin & Hx). f_equal. exact (Hkind x e Hin Hx).
Qed.

Lemma map_combine_zip_with {A B C} (f : A -> B -> C) (xs : list A) (ys : list B) :
  map (fun xy => f (fst xy) (snd xy)) (combine xs ys) = zip_with f xs ys.
Proof.
  revert ys; induction xs as [|x xs IH]; intros [|y ys]; simpl; try reflexivity.
  rewrite IH. reflexivity.
Qed.

Lemma zip_with_zip_with_l {A B C D} (f : A -> C -> D) (g : A -> B -> C)
    (xs : list A) (ys : list B) :
  zip_with f xs (zip_with g xs ys) = zip_with (fun x y => f x (g x y)) xs ys.
Proof.
  revert ys; induction xs as [|x xs IH]; intros [|y ys]; simpl; try reflexivity.
  rewrite IH. reflexivity.
Qed.

Lemma length_zip_with {A B C} (f : A -> B -> C) (xs : list A) (ys : list B) :
  length (zip_with f xs ys) = Nat.min (length xs) (length ys).
Proof.
  revert ys; induction xs as [|x xs IH]; intros [|y ys]; simpl; try reflexivity.
  rewrite IH. reflexivity.
Qed.

Lemma concatenate_eq {S} (var : shared S) (new : np.ndarray S) :
  np.concatenate (get_value var) new
  = if same_inner var new then Ok (joined var new) else Raise ValueError.
Proof. reflexivity. Qed.

Lemma concatenate_each_eq {S} (vars : list (shared S)) (news : list (np.ndarray S)) :
  concatenate_each vars news
  = if forallb (fun vn => same_inner (fst vn) (snd vn)) (combine vars news)
    then Ok (zip_with joined vars news)
    else Raise ValueError.
Proof.
  unfold concatenate_each. rewrite <- map_combine_zip_with.
  induction (combine vars news) as [|[v x] l IH]; simpl; [reflexivity|].
  rewrite concatenate_eq.
  destruct (same_inner v x); simpl; [|reflexivity].
  rewrite IH. destruct (forallb _ l); reflexivity.
Qed.

(** The concatenations succeed exactly when every supplied array agrees with
    the stored one past the pool axis; what they raise is a value error. *)
Lemma concatenated_eq {S R} (self : @SessionPoolEnvironment S R)
    (obs act : list (np.ndarray S)) (rew : np.ndarray S)
    (alive : option (np.ndarray S)) (pm : option (list (np.ndarray S))) :
  concatenated self obs act rew alive pm
  = if appendable self obs act rew alive pm
    then Ok (zip_with joined self.(observations) obs,
             zip_with joined self.(actions) act,
             joined self.(rewards) rew,
             option_map (joined self.(is_alive)) alive,
             option_map (zip_with joined self.(preceding_agent_memories)) pm)
    else Raise ValueError.
Proof.
  unfold concatenated, appendable.
  rewrite !concatenate_each_eq, concatenate_eq.
  destruct (forallb _ (combine (observations self) obs)); simpl; [|reflexivity].
  destruct (forallb _ (combine (actions self) act)); simpl; [|reflexivity].
  destruct (same_inner (rewards self) rew); simpl; [|reflexivity].
  destruct alive as [a|]; simpl.
  - rewrite concatenate_eq. destruct (same_inner (is_alive self) a); simpl; [|reflexivity].
    destruct pm as [l|]; simpl; [|reflexivity].
    rewrite concatenate_each_eq. destruct (forallb _ _); reflexivity.
  - destruct pm as [l|]; simpl; [|reflexivity].
    rewrite concatenate_each_eq. destruct (forallb _ _); reflexivity.
Qed.

Lemma crops_joined {S} (vars : list (shared S)) (news : list (np.ndarray S))
    (v : shared S) (x : np.ndarray S) (m : Z) :
  hd_error vars = Some v -> hd_error news = Some x ->
  crops (zip_with joined vars news) (Some m)
  = Ok (Z.of_nat (np.len (get_value v) + np.len x) >? m)%Z.
Proof.
  destruct vars as [|v' vs]; [discriminate|]. destruct news as [|x' xs]; [discriminate|].
  intros [= ->] [= ->].
  unfold crops, getitem, py_index; simpl.
  unfold np.len, joined; simpl. rewrite length_app. reflexivity.
Qed.

(** The pool a returning [append_sessions] leaves. *)
Lemma append_sessions_returns {S R} `{Scalar S} `{RandomStreams R}
    (self : @SessionPoolEnvironment S R) (obs act : list (np.ndarray S))
    (rew alive : np.ndarray S) (pm : list (np.ndarray S)) (mps : option Z) :
  counts_agree self obs act (Some pm) = true ->
  appendable self obs act rew (Some alive) (Some pm) = true ->
  (forall m, mps = Some m ->
     exists v x, hd_error self.(observations) = Some v /\ hd_error obs = Some x
                 /\ (Z.of_nat (np.len (get_value v) + np.len x) <= m)%Z) ->
  append_sessions obs act rew (Some alive) (Some pm) mps self
  = (Ok tt,
     loaded self (zip_with joined self.(observations) obs)
       (zip_with joined self.(actions) act) (joined self.(rewards) rew)
       (Some (joined self.(is_alive) alive))
       (Some (zip_with joined self.(preceding_agent_memories) pm))).
Proof.
  intros Hc Happ Hmax.
  pose proof (concatenated_eq self obs act rew (Some alive) (Some pm)) as Hk.
  rewrite Happ in Hk. simpl option_map in Hk.
  assert (Hc' : counts_agree self (zip_with joined self.(observations) obs)
                 (zip_with joined self.(actions) act)
                 (Some (zip_with joined self.(preceding_agent_memories) pm)) = true)
    by (eapply concatenated_counts_agree; eassumption).
  assert (Hcrop : crops (zip_with joined self.(observations) obs) mps = Ok false).
  { destruct mps as [m|]; [|reflexivity].
    destruct (Hmax m eq_refl) as (v & x & Hv & Hx & Hm).
    rewrite (crops_joined _ _ _ _ m Hv Hx). f_equal.
    rewrite Z.gtb_ltb. apply Z.ltb_ge. exact Hm. }
  rewrite append_sessions_eq, Hc, Hk, Hcrop, load_sessions_eq, Hc'. reflexivity.
Qed.

(** X1.  When both optional streams are supplied, the channel counts agree,
    every supplied array has the trailing shape of its stream, and
    [max_pool_size] is absent or not exceeded by the first observation stream
    grown by its new sessions, [append_sessions] returns, and every stream then
    holds its old sessions followed by the new ones, cast to its dtype. *)
Theorem append_sessions_appends
    {S R : Type} `{Scalar S} `{RandomStreams R}
    (self : @SessionPoolEnvironment S R) (obs act : list (np.ndarray S))
    (rew alive : np.ndarray S) (pm : list (np.ndarray S)) (mps : option Z) :
  counts_agree self obs act (Some pm) = true ->
  appendable self obs act rew (Some alive) (Some pm) = true ->
  (forall m, mps = Some m ->
     exists v x, hd_error self.(observations) = Some v /\ hd_error obs = Some x
                 /\ (Z.of_nat (np.len (get_value v) + np.len x) <= m)%Z) ->
  let grown := fun var new => np.cast (var_dtype var) (joined var new) in
  exists self',
    append_sessions obs act rew (Some alive) (Some pm) mps self = (Ok tt, self')
    /\ map (@get_value S) self'.(observations) = zip_with grown self.(observations) obs
    /\ map (@get_value S) self'.(actions) = zip_with grown self.(actions) act
    /\ map (@get_value S) self'.(preceding_agent_memories)
       = zip_with grown self.(preceding_agent_memories) pm
    /\ get_value self'.(rewards) = grown self.(rewards) rew
    /\ get_value self'.(is_alive) = grown self.(is_alive) alive.
Proof.
  intros Hc Happ Hmax grown.
  eexists. split; [exact (append_sessions_returns _ _ _ _ _ _ _ Hc Happ Hmax)|].
  unfold counts_agree in Hc.
  apply andb_prop in Hc as [Hc Hm]. apply andb_prop in Hc as [Ho Ha].
  apply Nat.eqb_eq in Ho, Ha, Hm.
  unfold loaded; simpl.
  assert (Hvals : forall vars news, length news = length vars ->
            map (@get_value S) (set_each vars (zip_with joined vars news))
            = zip_with grown vars news).
  { intros vars news Hl. rewrite set_each_values.
    - exact (zip_with_zip_with_l (fun var seq => np.cast (var_dtype var) seq) joined
               vars news).
    - rewrite length_zip_with, Hl. apply Nat.min_id. }
  repeat split; try (apply Hvals; assumption).
Qed.

Lemma append_sessions_appends_witness :
  exists self',
    append_sessions [sessions_obs 2 1] [sessions_flat 2 1] (sessions_flat 2 1)
      (Some (sessions_flat 1 1)) (Some [sessions_flat 2 1]) (Some 3%Z) pool_A
    = (Ok tt, self')
    /\ map (@np.rows Z) (map (@get_value Z) self'.(observations))
       = [[repeat 1%Z 10; repeat 1%Z 10; repeat 2%Z 10]]
    /\ np.rows (get_value self'.(rewards))
       = [repeat 1%Z 5; repeat 1%Z 5; repeat 2%Z 5].
Proof.
  destruct (append_sessions_appends pool_A [sessions_obs 2 1] [sessions_flat 2 1]
              (sessions_flat 2 1) (sessions_flat 1 1) [sessions_flat 2 1] (Some 3%Z))
    as (self' & Hrun & Hobs & _ & _ & Hrew & _).
  - reflexivity.
  - reflexivity.
  - intros m [= <-]. eexists. eexists. split; [reflexivity|]. split; [reflexivity|].
    simpl. lia.
  - exists self'. split; [exact Hrun|]. rewrite Hobs, Hrew. split; reflexivity.
Defined.

(** X2.  [append_sessions] writes all the streams or none: whatever the
    arguments, a call that raises leaves the pool exactly as it was. *)
Theorem append_sessions_all_or_nothing
    {S R : Type} `{Scalar S} `{RandomStreams R}
    (self : @SessionPoolEnvironment S R) (obs act : list (np.ndarray S))
    (rew : np.ndarray S) (alive : option (np.ndarray S))
    (pm : option (list (np.ndarray S))) (mps : option Z) (e : exn) :
  fst (append_sessions obs act rew alive pm mps self) = Raise e ->
  snd (append_sessions obs act rew alive pm mps self) = self.
Proof. apply append_sessions_raise_unchanged. Qed.

Lemma append_sessions_all_or_nothing_witness :
  snd (append_sessions [sessions_obs 2 1] [sessions_flat 2 1] (sessions_flat 2 1)
         (Some (sessions_flat 1 1)) None None pool_A)
  = pool_A.
Proof.
  apply (append_sessions_all_or_nothing pool_A [sessions_obs 2 1] [sessions_flat 2 1]
           (sessions_flat 2 1) (Some (sessions_flat 1 1)) None None
           (UnboundLocalError "preceding_memory_states")).
  vm_compute. reflexivity.
Defined.

(** X3.  Unlike [load_sessions], [append_sessions] rejects an array whose
    shape past the pool axis differs from that of the stream it is appended to:
    with the right channel counts, such a call raises the value error of
    [np.concatenate] and leaves the pool as it was. *)
Theorem append_sessions_shape_mismatch
    {S R : Type} `{Scalar S} `{RandomStreams R}
    (self : @SessionPoolEnvironment S R) (obs act : list (np.ndarray S))
    (rew : np.ndarray S) (alive : option (np.ndarray S))
    (pm : option (list (np.ndarray S))) (mps : option Z) :
  counts_agree self obs act pm = true ->
  appendable self obs act rew alive pm = false ->
  append_sessions obs act rew alive pm mps self = (Raise ValueError, self).
Proof.
  intros Hc Happ.
  rewrite append_sessions_eq, Hc, concatenated_eq, Happ. reflexivity.
Qed.

(** Three ticks appended to streams of five ticks. *)
Lemma append_sessions_shape_mismatch_witness :
  append_sessions [np.full 2%Z 1 [3; 2]] [np.full 2%Z 1 [3]] (np.full 2%Z 1 [3])
    (Some (np.full 1%Z 1 [3])) (Some [sessions_flat 2 1]) None pool_A
  = (Raise ValueError, pool_A).
Proof.
  apply (append_sessions_shape_mismatch pool_A [np.full 2%Z 1 [3; 2]]
           [np.full 2%Z 1 [3]] (np.full 2%Z 1 [3]) (Some (np.full 1%Z 1 [3]))
           (Some [sessions_flat 2 1]) None); reflexivity.
Defined.

(** X4.  On a pool without observation channel, [append_sessions] cannot be
    given a [max_pool_size]: the size it compares is that of the first
    observation stream, and a call that would otherwise succeed raises the
    index error of [observation_tensors[0]], whatever the bound. *)
Theorem append_sessions_no_observation_channel
    {S R : Type} `{Scalar S} `{RandomStreams R}
    (self : @SessionPoolEnvironment S R) (obs act : list (np.ndarray S))
    (rew : np.ndarray S) (alive : option (np.ndarray S))
    (pm : option (list (np.ndarray S))) (m : Z) :
  self.(observations) = [] ->
  counts_agree self obs act pm = true ->
  appendable self obs act rew alive pm = true ->
  append_sessions obs act rew alive pm (Some m) self = (Raise IndexError, self).
Proof.
  intros Hnone Hc Happ.
  rewrite append_sessions_eq, Hc, concatenated_eq, Happ, Hnone. reflexivity.
Qed.

Lemma append_sessions_no_observation_channel_witness :
  let blind : @SessionPoolEnvironment Z Z :=
    __init__ "float32" (Count 0) (Count 1) (Count 1) "int32" 1337 in
  append_sessions [] [sessions_flat 2 1] (sessions_flat 2 1) (Some (sessions_flat 1 1))
    (Some [sessions_flat 2 1]) (Some 1000%Z) blind
  = (Raise IndexError, blind).
Proof.
  intros blind.
  apply (append_sessions_no_observation_channel blind [] [sessions_flat 2 1]
           (sessions_flat 2 1) (Some (sessions_flat 1 1)) (Some [sessions_flat 2 1])
           1000%Z); reflexivity.
Defined.

(** ** What no call changes *)

Lemma set_each_keeps_length {S} `{Scalar S} (vars : list (shared S))
    (seqs : list (np.ndarray S)) :
  length (set_each vars seqs) = length vars.
Proof.
  revert seqs; induction vars as [|v vars IH]; intros [|x seqs]; simpl; try reflexivity.
  f_equal. apply IH.
Qed.

Lemma set_each_ids {S} `{Scalar S} (vars : list (shared S)) (seqs : list (np.ndarray S)) :
  map (fun v => (name v, var_dtype v)) (set_each vars seqs)
  = map (fun v => (name v, var_dtype v)) vars.
Proof.
  revert seqs; induction vars as [|v vars IH]; intros [|x seqs]; simpl; try reflexivity.
  f_equal. apply IH.
Qed.

Lemma loaded_layout {S R} `{Scalar S} (self : @SessionPoolEnvironment S R)
    (obs act : list (np.ndarray S)) (rew : np.ndarray S)
    (alive : option (np.ndarray S)) (pm : option (list (np.ndarray S))) :
  layout (loaded self obs act rew alive pm) = layout self
  /\ rng (loaded self obs act rew alive pm) = rng self.
Proof.
  split; [|reflexivity].
  unfold layout, loaded; simpl. rewrite !set_each_ids.
  destruct alive, pm; simpl; rewrite ?set_each_ids; reflexivity.
Qed.

Lemma perform_layout {S R} `{Scalar S} (c : call S) (self : @SessionPoolEnvironment S R) :
  layout (snd (perform c self)) = layout self
  /\ rng (snd (perform c self)) = rng self.
Proof.
  destruct c as [obs act rew alive pm | obs act rew alive pm mps]; simpl.
  - rewrite load_sessions_eq.
    destruct (counts_agree self obs act pm); simpl; [apply loaded_layout|].
    split; reflexivity.
  - rewrite append_sessions_eq.
    destruct (counts_agree self obs act pm); [|split; reflexivity].
    destruct (concatenated self obs act rew alive pm) as [[[[[ots ats] rt] iat] pms]|];
      [|split; reflexivity].
    destruct (crops ots mps) as [[|]|]; try (split; reflexivity).
    destruct iat as [ia|]; [|split; reflexivity].
    destruct pms as [ms|]; [|split; reflexivity].
    rewrite load_sessions_eq.
    destruct (counts_agree self ots ats (Some ms)); simpl; [apply loaded_layout|].
    split; reflexivity.
Qed.

(** X5.  No sequence of [load_sessions] and [append_sessions] calls, raising
    or not, changes the channels of a pool: their number, the names and the
    dtypes of their variables stay as they were, and so do the observation and
    action shapes recorded at construction (even when arrays of other shapes
    are loaded) and the random stream. *)
Theorem calls_keep_layout
    {S R : Type} `{Scalar S} `{RandomStreams R}
    (start : @SessionPoolEnvironment S R) (cs : list (call S)) :
  layout (after cs start) = layout start
  /\ rng (after cs start) = rng start
  /\ length (after cs start).(observations) = length start.(observations)
  /\ length (after cs start).(actions) = length start.(actions)
  /\ length (after cs start).(preceding_agent_memories)
     = length start.(preceding_agent_memories).
Proof.
  assert (Hkeep : layout (after cs start) = layout start
                  /\ rng (after cs start) = rng start).
  { revert start. induction cs as [|c cs IH]; intros start; [split; reflexivity|].
    unfold after; simpl. fold (after cs (snd (perform c start))).
    destruct (IH (snd (perform c start))) as [Hl Hr].
    destruct (perform_layout c start) as [Hl' Hr'].
    split; [rewrite Hl; exact Hl'|rewrite Hr; exact Hr']. }
  destruct Hkeep as [Hl Hr].
  split; [exact Hl|]. split; [exact Hr|].
  unfold layout in Hl. injection Hl as Ho Ha Hm _ _ _ _.
  apply (f_equal (@length _)) in Ho, Ha, Hm. rewrite !length_map in Ho, Ha, Hm.
  repeat split; assumption.
Qed.

(** ** Loading twice *)

Lemma set_each_twice {S} `{Scalar S} (vars : list (shared S))
    (xs ys : list (np.ndarray S)) :
  length ys = length vars ->
  set_each (set_each vars xs) ys = set_each vars ys.
Proof.
  revert xs ys; induction vars as [|v vars IH]; intros xs [|y ys]; simpl;
    try discriminate.
  - destruct xs; reflexivity.
  - intros [= Hl]. destruct xs as [|x xs]; simpl; [reflexivity|].
    unfold set_shared at 1; simpl. fold (set_shared v y).
    f_equal. apply IH. exact Hl.
Qed.

Lemma loaded_counts_agree {S R} `{Scalar S} (self : @SessionPoolEnvironment S R)
    (obsX actX : list (np.ndarray S)) (rewX : np.ndarray S)
    (aliveX : option (np.ndarray S)) (pmX : option (list (np.ndarray S)))
    (obs act : list (np.ndarray S)) (pm : option (list (np.ndarray S))) :
  counts_agree (loaded self obsX actX rewX aliveX pmX) obs act pm
  = counts_agree self obs act pm.
Proof.
  unfold counts_agree, loaded; simpl. rewrite !set_each_keeps_length.
  destruct pmX; [rewrite set_each_keeps_length|]; reflexivity.
Qed.

Lemma loaded_twice {S R} `{Scalar S} (self : @SessionPoolEnvironment S R)
    (obsX actX : list (np.ndarray S)) (rewX : np.ndarray S)
    (aliveX : option (np.ndarray S)) (pmX : option (list (np.ndarray S)))
    (obsY actY : list (np.ndarray S)) (rewY aliveY : np.ndarray S)
    (pmY : list (np.ndarray S)) :
  counts_agree self obsY actY (Some pmY) = true ->
  loaded (loaded self obsX actX rewX aliveX pmX) obsY actY rewY (Some aliveY) (Some pmY)
  = loaded self obsY actY rewY (Some aliveY) (Some pmY).
Proof.
  unfold counts_agree. intros Hc.
  apply andb_prop in Hc as [Hc Hm]. apply andb_prop in Hc as [Ho Ha].
  apply Nat.eqb_eq in Ho, Ha, Hm.
  unfold loaded; simpl.
  rewrite !set_each_twice by assumption.
  f_equal.
  - destruct pmX; [apply set_each_twice; exact Hm|reflexivity].
  - destruct aliveX; reflexivity.
Qed.

(** X6.  A load that supplies every stream (liveness and memories included)
    leaves no trace of what was loaded before: loading [X] and then [Y] gives
    the pool that loading [Y] alone gives. *)
Theorem load_sessions_overwrites
    {S R : Type} `{Scalar S} `{RandomStreams R}
    (self : @SessionPoolEnvironment S R)
    (obsX actX : list (np.ndarray S)) (rewX : np.ndarray S)
    (aliveX : option (np.ndarray S)) (pmX : option (list (np.ndarray S)))
    (obsY actY : list (np.ndarray S)) (rewY aliveY : np.ndarray S)
    (pmY : list (np.ndarray S)) :
  counts_agree self obsY actY (Some pmY) = true ->
  let loadX := load_sessions obsX actX rewX aliveX pmX in
  let loadY := load_sessions obsY actY rewY (Some aliveY) (Some pmY) in
  loadY (snd (loadX self)) = loadY self.
Proof.
  intros HcY loadX loadY. unfold loadX, loadY.
  rewrite (load_sessions_eq self obsX).
  destruct (counts_agree self obsX actX pmX); [|reflexivity].
  cbn [snd]. rewrite !load_sessions_eq, loaded_counts_agree, HcY.
  f_equal. apply loaded_twice. exact HcY.
Qed.

Lemma load_sessions_overwrites_witness :
  load_sessions [three_obs] [three_rows 5 10 11 12] (three_rows 5 1 0 2)
    (Some (three_rows 5 1 1 1)) (Some [three_rows 5 10 11 12]) pool_A
  = (Ok tt, scenario_pool).
Proof.
  change pool_A with
    (snd (load_sessions [sessions_obs 1 2] [sessions_flat 1 2] (sessions_flat 1 2)
            (Some (sessions_flat 1 2)) (Some [sessions_flat 1 2]) empty_pool)).
  unfold empty_pool.
  rewrite !(load_sessions_overwrites _ _ _ _ _ _ [three_obs] [three_rows 5 10 11 12]
              (three_rows 5 1 0 2) (three_rows 5 1 1 1) [three_rows 5 10 11 12])
    by reflexivity.
  reflexivity.
Defined.

(** ** Selecting and sampling only read the streams *)

Lemma select_session_batch_state {S R} (self : @SessionPoolEnvironment S R)
    (selector : list Z) :
  snd (select_session_batch selector self) = self.
Proof.
  unfold select_session_batch, bind, get, lift, ret.
  destruct (take_each (observations self) selector); [|reflexivity].
  destruct (take_each (actions self) selector); [|reflexivity].
  destruct (take_each (preceding_agent_memories self) selector); [|reflexivity].
  destruct (np.take (get_value (rewards self)) selector); [|reflexivity].
  destruct (np.take (get_value (is_alive self)) selector); reflexivity.
Qed.

(** X7.  [select_session_batch] never writes the pool, whether it returns or
    raises, and all that [sample_session_batch] writes is the random stream,
    which it leaves where its one draw left it: the streams, their variables
    and the recorded shapes are untouched. *)
Theorem selecting_writes_no_stream
    {S R : Type} `{Scalar S} `{RandomStreams R}
    (self : @SessionPoolEnvironment S R) (selector : list Z)
    (max_n_samples : Z) (replace : bool) :
  snd (select_session_batch selector self) = self
  /\ let N := Z.of_nat (pool_size self) in
     let n := if replace then max_n_samples else Z.min max_n_samples N in
     snd (sample_session_batch max_n_samples replace self)
     = set_rng (snd (choice self.(rng) n N replace)) self.
Proof.
  split; [apply select_session_batch_state|].
  intros N n.
  unfold sample_session_batch, bind at 1, get at 1, bind at 1, rng_choice.
  fold N. fold n.
  destruct (choice (rng self) n N replace) as [[ids|e] rng']; simpl; [|reflexivity].
  apply select_session_batch_state.
Qed.

(** ** The shape of a batch *)

Lemma take_shape {S} (a b : np.ndarray S) (selector : list Z) :
  np.take a selector = Ok b -> np.shape b = length selector :: np.inner a.
Proof.
  unfold np.take.
  destruct (rmap _ selector) as [rs|] eqn:Hr; simpl; [|discriminate].
  intros [= <-]. unfold np.shape; simpl.
  rewrite (rmap_length _ _ Hr). reflexivity.
Qed.

Lemma take_each_shapes {S} (vars : list (shared S)) (bs : list (np.ndarray S))
    (selector : list Z) :
  take_each vars selector = Ok bs ->
  Forall2 (fun v b => np.shape b = length selector :: np.inner (get_value v)) vars bs.
Proof.
  intros Ht. apply rmap_Forall2 in Ht.
  eapply Forall2_impl; [|exact Ht].
  intros v b Hvb. exact (take_shape _ _ _ Hvb).
Qed.

(** X8.  A batch that [select_session_batch] returns has, in every stream, as
    many sessions as the selector has indices, each of the shape the sessions
    of that stream have in the pool, whether or not the streams of the pool
    agree on their size.  The observation and action shapes it is given are
    those recorded at construction. *)
Theorem select_session_batch_shapes
    {S R : Type} `{Scalar S} `{RandomStreams R}
    (self : @SessionPoolEnvironment S R) (selector : list Z)
    (batch : SessionBatchEnvironment (S := S)) :
  fst (select_session_batch selector self) = Ok batch ->
  let selected := fun (v : shared S) b =>
    np.shape b = length selector :: np.inner (get_value v) in
  Forall2 selected self.(observations) (batch_observations batch)
  /\ Forall2 selected self.(actions) (batch_actions batch)
  /\ Forall2 selected self.(preceding_agent_memories)
       (batch_preceding_agent_memories batch)
  /\ selected self.(rewards) (batch_rewards batch)
  /\ selected self.(is_alive) (batch_is_alive batch)
  /\ batch_observation_shapes batch = self.(observation_shapes)
  /\ batch_action_shapes batch = self.(action_shapes).
Proof.
  unfold select_session_batch, bind, get, lift, ret.
  destruct (take_each (observations self) selector) as [bo|] eqn:Ho; [|discriminate].
  destruct (take_each (actions self) selector) as [ba|] eqn:Ha; [|discriminate].
  destruct (take_each (preceding_agent_memories self) selector) as [bm|] eqn:Hm;
    [|discriminate].
  destruct (np.take (get_value (rewards self)) selector) as [br|] eqn:Hr; [|discriminate].
  destruct (np.take (get_value (is_alive self)) selector) as [bl|] eqn:Hl; [|discriminate].
  intros Hb. simpl in Hb. injection Hb as <-. simpl.
  split; [exact (take_each_shapes _ _ _ Ho)|].
  split; [exact (take_each_shapes _ _ _ Ha)|].
  split; [exact (take_each_shapes _ _ _ Hm)|].
  split; [exact (take_shape _ _ _ Hr)|].
  split; [exact (take_shape _ _ _ Hl)|].
  split; reflexivity.
Qed.

Lemma select_session_batch_shapes_witness :
  exists batch,
    fst (select_session_batch [2; (-3); 2; 0]%Z scenario_pool) = Ok batch
    /\ np.shape (batch_rewards batch) = [4; 5]
    /\ map (@np.shape Z) (batch_observations batch) = [[4; 5; 2]].
Proof.
  eexists. split; [vm_compute; reflexivity|].
  pose proof (select_session_batch_shapes scenario_pool [2; (-3); 2; 0]%Z _ eq_refl)
    as (_ & _ & _ & Hrew & _).
  split; [exact Hrew|reflexivity].
Defined.

(** X9.  The two empty cases of a selection.  The empty selector never
    raises: on any pool it returns the batch of no session, every stream
    keeping the shape of its sessions.  On a pool of no session every selector
    that is not empty raises the index error. *)
Theorem select_session_batch_empty
    {S R : Type} `{Scalar S} `{RandomStreams R}
    (self : @SessionPoolEnvironment S R) (selector : list Z) :
  let none := fun v : shared S =>
    {| np.inner := np.inner (get_value v); np.rows := [] |} in
  select_session_batch [] self
  = (Ok {| batch_observations := map none self.(observations);
           batch_observation_shapes := self.(observation_shapes);
           batch_actions := map none self.(actions);
           batch_action_shapes := self.(action_shapes);
           batch_rewards := none self.(rewards);
           batch_is_alive := none self.(is_alive);
           batch_preceding_agent_memories := map none self.(preceding_agent_memories) |},
     self)
  /\ (pool_size self = 0 -> selector <> [] ->
      select_session_batch selector self = (Raise IndexError, self)).
Proof.
  intros none. split.
  - unfold select_session_batch, bind, get, lift, ret, take_each.
    rewrite !(rmap_ok _ none) by reflexivity. reflexivity.
  - intros Hempty Hsel. apply select_session_batch_out_of_range.
    destruct selector as [|i selector]; [contradiction|].
    left. rewrite Hempty. simpl. lia.
Qed.

Lemma select_session_batch_empty_witness :
  select_session_batch [0%Z] empty_pool = (Raise IndexError, empty_pool).
Proof.
  apply (proj2 (select_session_batch_empty empty_pool [0%Z])).
  - reflexivity.
  - discriminate.
Defined.

(** ** One tick of padding and no more *)

Lemma index2_raise {S} (a : np.ndarray S) (ps ts : list Z) (e : exn) :
  np.index2 a ps ts = Raise e -> e = IndexError.
Proof.
  unfold np.index2. destruct (np.inner a) as [|T1 c]; [intros [= <-]; reflexivity|].
  destruct (rmap _ (combine ps ts)) as [cells|e'] eqn:Hr; simpl; [discriminate|].
  intros [= <-]. apply rmap_raise in Hr as ([p t] & _ & Hpt). simpl in Hpt.
  destruct (py_index (np.len a) p) eqn:Hp; simpl in Hpt;
    [|injection Hpt as <-; exact (py_index_raise _ _ Hp)].
  destruct (py_index T1 t) eqn:Ht; simpl in Hpt; [discriminate|].
  injection Hpt as <-. exact (py_index_raise _ _ Ht).
Qed.

Lemma Exists_combine_r {A B} (P : B -> Prop) (xs : list A) (ys : list B) :
  length xs = length ys -> Exists P ys -> Exists (fun xy => P (snd xy)) (combine xs ys).
Proof.
  revert ys; induction xs as [|x xs IH]; intros [|y ys]; simpl; try discriminate.
  - intros _ Hbad; inversion Hbad.
  - intros [= Hl] Hbad. inversion Hbad as [? ? Hy|? ? Hrest]; subst.
    + left; exact Hy.
    + right. apply IH; assumption.
Qed.

Lemma index2_tick_out_of_range {S} (a : np.ndarray S) (T1 : nat) (c : list nat)
    (ps ts : list Z) :
  np.inner a = T1 :: c -> length ps = length ts ->
  Exists (fun t => ~ (- Z.of_nat T1 <= t < Z.of_nat T1)%Z) ts ->
  np.index2 a ps ts = Raise IndexError.
Proof.
  intros Hinner Hl Hbad.
  destruct (np.index2 a ps ts) as [b|e] eqn:Hi; [|f_equal; exact (index2_raise _ _ _ _ Hi)].
  exfalso. unfold np.index2 in Hi. rewrite Hinner in Hi.
  destruct (rmap _ (combine ps ts)) as [cells|] eqn:Hr; simpl in Hi; [|discriminate].
  apply rmap_Forall2 in Hr.
  apply (Exists_combine_r _ ps ts Hl) in Hbad.
  clear Hi. induction Hr as [|[p t] cl l cells' Hpt _ IH]; [inversion Hbad|].
  inversion Hbad as [? ? Ht|? ? Hrest]; subst; [|exact (IH Hrest)].
  simpl in Ht, Hpt.
  rewrite (py_index_out_of_range _ Ht) in Hpt.
  destruct (py_index (np.len a) p); discriminate Hpt.
Qed.

(** X10.  The padding is one tick long.  On a pool with an observation
    channel, whose observation streams are well formed and have [T >= 1]
    ticks, [get_action_results] raises the index error as soon as one time
    index of the batch is [T] or more: the state [T] that the step from the
    last tick returns can itself not be stepped from. *)
Theorem get_action_results_past_padding
    {S R : Type} `{Scalar S} `{RandomStreams R}
    (self : @SessionPoolEnvironment S R) (time_i : list Z)
    (states_rest : list (list Z)) (actions_arg : list (np.ndarray S)) (T : nat) :
  0 < T ->
  self.(observations) <> [] ->
  Forall (fun v => np.wf (get_value v) /\ hd_error (np.inner (get_value v)) = Some T)
    self.(observations) ->
  Exists (fun t => Z.of_nat T <= t)%Z time_i ->
  get_action_results self (time_i :: states_rest) actions_arg = Raise IndexError.
Proof.
  intros HT Hsome Hobs Hpast.
  rewrite Forall_forall in Hobs.
  unfold get_action_results.
  replace (getitem (time_i :: states_rest) 0) with (Ok time_i)
    by (unfold getitem, py_index; simpl; reflexivity).
  simpl rbind at 1. unfold padded_observations. rewrite rmap_map.
  erewrite rmap_raises with (e0 := IndexError); [reflexivity| |].
  - intros v e Hv. destruct (Hobs v Hv) as (Hwf & Hhd).
    destruct (np.inner (get_value v)) as [|T' c] eqn:Hc; [discriminate|].
    injection Hhd as ->.
    rewrite (padded_one_more_tick Hwf Hc HT). simpl. apply index2_raise.
  - destruct (observations self) as [|v vs]; [contradiction|].
    left. destruct (Hobs v (or_introl eq_refl)) as (Hwf & Hhd).
    destruct (np.inner (get_value v)) as [|T' c] eqn:Hc; [discriminate|].
    injection Hhd as ->.
    rewrite (padded_one_more_tick Hwf Hc HT). simpl.
    apply index2_tick_out_of_range with (T1 := T + 1) (c := c).
    + unfold one_more_tick. rewrite Hc. reflexivity.
    + rewrite !length_map, length_seq. reflexivity.
    + apply Exists_exists. apply Exists_exists in Hpast as (t & Ht & Hge).
      exists (t + 1)%Z. split; [apply in_map_iff; exists t; split; [reflexivity|exact Ht]|].
      lia.
Qed.

(** The step from the last tick returns the state 5; the step from 5
    raises. *)
Lemma get_action_results_past_padding_witness :
  get_action_results scenario_pool [[0; 5; 1]%Z] [] = Raise IndexError.
Proof.
  apply (get_action_results_past_padding scenario_pool [0; 5; 1]%Z [] [] 5).
  - lia.
  - discriminate.
  - repeat constructor.
  - right. left. simpl. lia.
Defined.

(** ** A new pool *)

Lemma created_full {S} `{Scalar S} (nm : string) (x : S) (n : nat) (dims : list nat)
    (d : dtype) :
  let var := create_shared nm (np.full x n dims) d in
  np.len (get_value var) = n /\ np.wf (get_value var).
Proof.
  unfold create_shared, np.full, np.cast, np.len, np.wf; simpl.
  rewrite length_map, repeat_length. split; [reflexivity|].
  apply Forall_map, Forall_forall. intros r Hr. apply repeat_spec in Hr. subst r.
  rewrite length_map. apply repeat_length.
Qed.

Lemma Forall_map_all {A B} (P : B -> Prop) (f : A -> B) (xs : list A) :
  (forall x, P (f x)) -> Forall P (map f xs).
Proof. intros Hf. apply Forall_map, Forall_forall. intros x _. apply Hf. Qed.

(** X11.  The dtypes of a new pool.  A counted observation or memory channel
    is [floatX] and a counted action channel is [default_action_dtype]; a
    channel given as a layer takes the dtype the layer declares, [floatX] when
    it declares none; the rewards are [floatX] and the liveness is uint8,
    whatever the arguments.  A count that is zero or negative gives no
    channel. *)
Theorem new_pool_dtypes
    {S R : Type} `{Scalar S} `{RandomStreams R}
    (floatX : dtype) (observations_arg actions_arg agent_memories : channels)
    (default_action_dtype : dtype) (rng_seed : Z) :
  let self : @SessionPoolEnvironment S R :=
    __init__ floatX observations_arg actions_arg agent_memories
      default_action_dtype rng_seed in
  let of_layers := map (fun l => get_layer_dtype l floatX) in
  map (@var_dtype S) self.(observations)
  = match observations_arg with
    | Count n => repeat floatX (Z.to_nat n)
    | Layers ls => of_layers ls
    end
  /\ map (@var_dtype S) self.(actions)
     = match actions_arg with
       | Count n => repeat default_action_dtype (Z.to_nat n)
       | Layers ls => of_layers ls
       end
  /\ map (@var_dtype S) self.(preceding_agent_memories)
     = match agent_memories with
       | Count n => repeat floatX (Z.to_nat n)
       | Layers ls => of_layers ls
       end
  /\ var_dtype self.(rewards) = floatX
  /\ var_dtype self.(is_alive) = "uint8".
Proof.
  intros self of_layers.
  assert (Hcount : forall (mk : nat -> shared S) (d : dtype) (n : Z),
             (forall i, var_dtype (mk i) = d) ->
             map (@var_dtype S) (map mk (range n)) = repeat d (Z.to_nat n)).
  { intros mk d n Hmk. rewrite map_map. unfold range.
    rewrite (map_ext _ (fun _ => d)) by exact Hmk.
    rewrite map_const_repeat, length_seq. reflexivity. }
  unfold self, __init__; simpl.
  split; [|split; [|split; [|split; reflexivity]]].
  - destruct observations_arg as [n|ls]; [apply Hcount; reflexivity|].
    rewrite map_map. apply map_enumerate. reflexivity.
  - destruct actions_arg as [n|ls]; [apply Hcount; reflexivity|].
    rewrite map_map. apply map_enumerate. reflexivity.
  - destruct agent_memories as [n|ls]; [apply Hcount; reflexivity|].
    rewrite map_map. apply map_enumerate. reflexivity.
Qed.

(** X12.  A new pool is sound whatever the arguments of the constructor:
    all its streams are well-formed arrays of ten sessions, so that
    [pool_size] is 10, [sequence_length] is 5 and the streams agree on the
    pool size; and the shapes it records are [[2]] for a counted observation
    channel, the scalar shape for a counted action channel, and the output
    shape past its first axis for a layer. *)
Theorem new_pool_consistent
    {S R : Type} `{Scalar S} `{RandomStreams R}
    (floatX : dtype) (observations_arg actions_arg agent_memories : channels)
    (default_action_dtype : dtype) (rng_seed : Z) :
  let self : @SessionPoolEnvironment S R :=
    __init__ floatX observations_arg actions_arg agent_memories
      default_action_dtype rng_seed in
  pool_size self = 10 /\ sequence_length self = Ok 5
  /\ consistent self
  /\ Forall (fun v => np.wf (get_value v))
       (self.(rewards) :: self.(is_alive) :: self.(observations) ++ self.(actions)
        ++ self.(preceding_agent_memories))
  /\ self.(observation_shapes)
     = match observations_arg with
       | Count n => repeat [2] (Z.to_nat n)
       | Layers ls => map (fun l => tl (output_shape l)) ls
       end
  /\ self.(action_shapes)
     = match actions_arg with
       | Count n => repeat [] (Z.to_nat n)
       | Layers ls => map (fun l => tl (output_shape l)) ls
       end.
Proof.
  intros self.
  assert (Hall : Forall (fun v : shared S =>
                           np.len (get_value v) = 10 /\ np.wf (get_value v))
                   (self.(rewards) :: self.(is_alive) :: self.(observations)
                    ++ self.(actions) ++ self.(preceding_agent_memories))).
  { unfold self, __init__; simpl.
    constructor; [apply (created_full _ zero)|].
    constructor; [apply (created_full _ one)|].
    apply Forall_app; split; [|apply Forall_app; split].
    - destruct observations_arg as [n|ls]; apply Forall_map_all.
      + intros i. apply (created_full _ zero).
      + intros [i l]. apply (created_full _ zero).
    - destruct actions_arg as [n|ls]; apply Forall_map_all.
      + intros i. apply (created_full _ zero).
      + intros [i l]. apply (created_full _ zero).
    - destruct agent_memories as [n|ls]; apply Forall_map_all.
      + intros i. apply (created_full _ zero).
      + intros [i l]. apply (created_full _ zero). }
  assert (Hshapes : forall (mk : nat -> shared S) (dims : list nat) (n : Z),
             (forall i, skipn 2 (np.shape (get_value (mk i))) = dims) ->
             map (fun v => skipn 2 (np.shape (get_value v))) (map mk (range n))
             = repeat dims (Z.to_nat n)).
  { intros mk dims n Hmk. rewrite map_map. unfold range.
    rewrite (map_ext _ (fun _ => dims)) by exact Hmk.
    rewrite map_const_repeat, length_seq. reflexivity. }
  assert (Hsize : pool_size self = 10) by reflexivity.
  split; [exact Hsize|]. split; [reflexivity|]. split; [|split; [|split]].
  - unfold consistent. rewrite Hsize.
    inversion Hall as [|? ? _ Hrest]; subst. inversion Hrest as [|? ? Halive Hstreams]; subst.
    rewrite !app_assoc. apply Forall_app. split.
    + rewrite <- app_assoc. eapply Forall_impl; [|exact Hstreams]. intros v [Hv _]; exact Hv.
    + constructor; [exact (proj1 Halive)|constructor].
  - eapply Forall_impl; [|exact Hall]. intros v [_ Hv]; exact Hv.
  - unfold self, __init__; simpl.
    destruct observations_arg as [n|ls]; [apply Hshapes; reflexivity|].
    rewrite map_map. apply map_enumerate. reflexivity.
  - unfold self, __init__; simpl.
    destruct actions_arg as [n|ls]; [apply Hshapes; reflexivity|].
    rewrite map_map. apply map_enumerate. reflexivity.
Qed.

(** ** Sampling the whole pool *)

(** X13.  Asking, without replacement, for at least as many samples as the
    pool has sessions samples every session exactly once: with a stream that
    keeps the contract of [choice], the indices drawn are a permutation of
    [0 .. pool_size - 1], and the batch is the one selected at them. *)
Theorem sample_session_batch_whole_pool
    {S R : Type} `{Scalar S} `{RandomStreams R}
    (self : @SessionPoolEnvironment S R) (max_n_samples : Z) :
  choice_contract self.(rng) ->
  (Z.of_nat (pool_size self) <= max_n_samples)%Z ->
  exists ids rng',
    Permutation ids (map Z.of_nat (seq 0 (pool_size self)))
    /\ sample_session_batch max_n_samples false self
       = select_session_batch ids (set_rng rng' self).
Proof.
  intros Hrng Hall.
  set (N := Z.of_nat (pool_size self)).
  destruct (Hrng N N false) as (ids & Hdraw & Hlen & Hrange & Hdistinct);
    [unfold N; lia|lia|].
  destruct (choice (rng self) N N false) as [drawn rng'] eqn:Hchoice.
  simpl in Hdraw. subst drawn.
  exists ids, rng'. split.
  - apply NoDup_Permutation_bis; [exact (Hdistinct eq_refl)| |].
    + rewrite length_map, length_seq. unfold N in Hlen. lia.
    + intros i Hi. rewrite Forall_forall in Hrange. specialize (Hrange i Hi).
      apply in_map_iff. exists (Z.to_nat i). split; [lia|].
      apply in_seq. unfold N in Hrange. lia.
  - unfold sample_session_batch, bind at 1, get at 1, bind at 1, rng_choice.
    fold N. replace (Z.min max_n_samples N) with N by lia.
    rewrite Hchoice. reflexivity.
Qed.

Lemma sample_session_batch_whole_pool_witness :
  exists batch rng',
    sample_session_batch 7 false scenario_pool = (Ok batch, set_rng rng' scenario_pool)
    /\ np.rows (batch_rewards batch)
       = [[2; 2; 2; 2; 2]; [1; 1; 1; 1; 1]; [0; 0; 0; 0; 0]]%Z.
Proof.
  destruct (sample_session_batch_whole_pool scenario_pool 7)
    as (ids & rng' & _ & Hsample).
  - apply counter_choice_contract.
  - simpl. lia.
  - eexists. eexists. split; [vm_compute; reflexivity|reflexivity].
Defined.

(** ** Pools whose streams agree on their size *)

Lemma set_each_len {S} `{Scalar S} (vars : list (shared S)) (seqs : list (np.ndarray S))
    (k : nat) :
  length seqs = length vars ->
  Forall (fun a => np.len a = k) seqs ->
  Forall (fun v => np.len (get_value v) = k) (set_each vars seqs).
Proof.
  revert seqs; induction vars as [|v vars IH]; intros [|x seqs]; simpl; try discriminate.
  - intros _ _; constructor.
  - intros [= Hl] Hk.
    pose proof (Forall_inv Hk) as Hx. apply Forall_inv_tail in Hk.
    constructor; [|apply IH; assumption].
    unfold set_shared, np.cast, np.len; simpl. rewrite length_map. exact Hx.
Qed.

Lemma zip_with_joined_len {S} (vars : list (shared S)) (news : list (np.ndarray S))
    (n k : nat) :
  Forall (fun v => np.len (get_value v) = n) vars ->
  Forall (fun a => np.len a = k) news ->
  Forall (fun a => np.len a = n + k) (zip_with joined vars news).
Proof.
  revert news; induction vars as [|v vars IH]; intros [|x news] Hn Hk; simpl;
    try constructor.
  - pose proof (Forall_inv Hn) as Hv. pose proof (Forall_inv Hk) as Hx.
    unfold joined, np.len in *; simpl. rewrite length_app. congruence.
  - apply IH; [exact (Forall_inv_tail Hn)|exact (Forall_inv_tail Hk)].
Qed.

Lemma loaded_consistent {S R} `{Scalar S} (self : @SessionPoolEnvironment S R)
    (obs act : list (np.ndarray S)) (rew alive : np.ndarray S)
    (pm : list (np.ndarray S)) (k : nat) :
  counts_agree self obs act (Some pm) = true ->
  sessions_supplied k obs act rew alive pm ->
  consistent (loaded self obs act rew (Some alive) (Some pm))
  /\ pool_size (loaded self obs act rew (Some alive) (Some pm)) = k.
Proof.
  intros Hc Hk. unfold sessions_supplied in Hk.
  apply Forall_app in Hk as [Hobs Hk]. apply Forall_app in Hk as [Hact Hk].
  apply Forall_app in Hk as [Hmem Hk].
  pose proof (Forall_inv Hk) as Halive.
  pose proof (Forall_inv (Forall_inv_tail Hk)) as Hrew.
  unfold counts_agree in Hc.
  apply andb_prop in Hc as [Hc Hm]. apply andb_prop in Hc as [Ho Ha].
  apply Nat.eqb_eq in Ho, Ha, Hm.
  assert (Hsize : pool_size (loaded self obs act rew (Some alive) (Some pm)) = k).
  { rewrite loaded_pool_size. exact Hrew. }
  split; [|exact Hsize].
  unfold consistent. rewrite Hsize. unfold loaded; simpl.
  repeat (apply Forall_app; split); try (apply set_each_len; assumption).
  constructor; [|constructor].
  unfold set_shared, np.cast, np.len; simpl. rewrite length_map. exact Halive.
Qed.

(** X14.  Loading arrays that all hold the same number [k] of sessions, the
    liveness and the memories among them, makes the pool consistent: every
    stream then holds [k] sessions and [pool_size] is [k], whatever the pool
    held before. *)
Theorem load_sessions_consistent
    {S R : Type} `{Scalar S} `{RandomStreams R}
    (self : @SessionPoolEnvironment S R) (obs act : list (np.ndarray S))
    (rew alive : np.ndarray S) (pm : list (np.ndarray S)) (k : nat) :
  counts_agree self obs act (Some pm) = true ->
  sessions_supplied k obs act rew alive pm ->
  let out := load_sessions obs act rew (Some alive) (Some pm) self in
  fst out = Ok tt /\ consistent (snd out) /\ pool_size (snd out) = k.
Proof.
  intros Hc Hk out. unfold out. rewrite load_sessions_eq, Hc. cbn [fst snd].
  split; [reflexivity|]. exact (loaded_consistent self obs act rew alive pm k Hc Hk).
Qed.

Lemma load_sessions_consistent_witness :
  consistent scenario_pool /\ pool_size scenario_pool = 3.
Proof.
  apply (load_sessions_consistent fresh_pool [three_obs] [three_rows 5 10 11 12]
           (three_rows 5 1 0 2) (three_rows 5 1 1 1) [three_rows 5 10 11 12] 3).
  - reflexivity.
  - repeat constructor.
Defined.

(** X15.  A returning [append_sessions] keeps a consistent pool consistent:
    when the supplied arrays all hold [k] sessions, every stream grows by [k]
    sessions, and so does [pool_size]. *)
Theorem append_sessions_keeps_consistent
    {S R : Type} `{Scalar S} `{RandomStreams R}
    (self : @SessionPoolEnvironment S R) (obs act : list (np.ndarray S))
    (rew alive : np.ndarray S) (pm : list (np.ndarray S)) (mps : option Z)
    (k : nat) :
  consistent self ->
  counts_agree self obs act (Some pm) = true ->
  appendable self obs act rew (Some alive) (Some pm) = true ->
  (forall m, mps = Some m ->
     exists v x, hd_error self.(observations) = Some v /\ hd_error obs = Some x
                 /\ (Z.of_nat (np.len (get_value v) + np.len x) <= m)%Z) ->
  sessions_supplied k obs act rew alive pm ->
  let out := append_sessions obs act rew (Some alive) (Some pm) mps self in
  fst out = Ok tt /\ consistent (snd out) /\ pool_size (snd out) = pool_size self + k.
Proof.
  intros Hcons Hc Happ Hmax Hk out. unfold out.
  rewrite (append_sessions_returns _ _ _ _ _ _ _ Hc Happ Hmax). cbn [fst snd].
  split; [reflexivity|].
  unfold consistent in Hcons.
  apply Forall_app in Hcons as [Hobs Hcons]. apply Forall_app in Hcons as [Hact Hcons].
  apply Forall_app in Hcons as [Hmem Halive]. apply Forall_inv in Halive.
  pose proof Hk as Hk0. unfold sessions_supplied in Hk.
  apply Forall_app in Hk as [Hkobs Hk]. apply Forall_app in Hk as [Hkact Hk].
  apply Forall_app in Hk as [Hkmem Hk].
  pose proof (Forall_inv Hk) as Hkalive.
  pose proof (Forall_inv (Forall_inv_tail Hk)) as Hkrew.
  apply loaded_consistent.
  - eapply concatenated_counts_agree; [exact Hc|].
    rewrite concatenated_eq, Happ. reflexivity.
  - unfold sessions_supplied.
    repeat (apply Forall_app; split); try (apply zip_with_joined_len; assumption).
    constructor; [|constructor; [|constructor]].
    + unfold joined, np.len in *; simpl. rewrite length_app. congruence.
    + unfold joined, np.len, pool_size, np.shape in *; simpl in *.
      rewrite length_app. congruence.
Qed.

Lemma append_sessions_keeps_consistent_witness :
  let out :=
    append_sessions [sessions_obs 2 1] [sessions_flat 2 1] (sessions_flat 2 1)
      (Some (sessions_flat 1 1)) (Some [sessions_flat 2 1]) None scenario_pool in
  fst out = Ok tt /\ consistent (snd out) /\ pool_size (snd out) = 4.
Proof.
  apply (append_sessions_keeps_consistent scenario_pool [sessions_obs 2 1]
           [sessions_flat 2 1] (sessions_flat 2 1) (sessions_flat 1 1)
           [sessions_flat 2 1] None 1).
  - exact scenario_pool_consistent.
  - reflexivity.
  - reflexivity.
  - discriminate.
  - repeat constructor.
Defined.

(** ** The reward of one session *)

Lemma firstn_plus {A} (a b : nat) (l : list A) :
  firstn (a + b) l = firstn a l ++ firstn b (skipn a l).
Proof.
  revert l; induction a as [|a IH]; intros l; simpl; [reflexivity|].
  destruct l as [|x l]; simpl; [rewrite firstn_nil; reflexivity|].
  f_equal. apply IH.
Qed.

Lemma concat_cells {S} (c T : nat) (row : list S) :
  length row = T * c -> concat (map (np.cell c row) (seq 0 T)) = row.
Proof.
  intros Hlen.
  assert (Hgen : forall s, concat (map (np.cell c row) (seq s T))
                           = firstn (T * c) (skipn (s * c) row)).
  { clear Hlen. induction T as [|T IH]; intros s; simpl; [reflexivity|].
    rewrite IH. unfold np.cell. rewrite firstn_plus, skipn_skipn. reflexivity. }
  rewrite Hgen. simpl. rewrite <- Hlen. apply firstn_all.
Qed.

(** X16.  [get_reward] reads the rewards array and nothing else: it always
    issues its one warning, it ignores the states and the actions, and for a
    session index in [[-pool_size, pool_size)] on well-formed rewards with a
    time axis it returns that session's rewards, one entry per tick (an index
    below zero counts from the end).  Any other index raises the index
    error. *)
Theorem get_reward_reads_rewards_row
    {S R : Type} `{Scalar S} `{RandomStreams R}
    (self : @SessionPoolEnvironment S R)
    (session_states session_actions : np.ndarray S) (batch_id : Z)
    (T : nat) (c : list nat) :
  np.wf (get_value self.(rewards)) ->
  np.inner (get_value self.(rewards)) = T :: c ->
  let in_range := (- Z.of_nat (pool_size self) <= batch_id < Z.of_nat (pool_size self))%Z in
  fst (get_reward self session_states session_actions batch_id) = [get_reward_warning]
  /\ (in_range ->
      exists r,
        snd (get_reward self session_states session_actions batch_id) = Ok r
        /\ np.shape r = T :: c
        /\ concat (np.rows r) = row_at (get_value self.(rewards)) batch_id)
  /\ (~ in_range ->
      snd (get_reward self session_states session_actions batch_id) = Raise IndexError).
Proof.
  intros Hwf Hinner in_range. unfold in_range, pool_size, np.shape; simpl.
  split; [reflexivity|].
  unfold getitem_row. rewrite Hinner. split.
  - intros Hin. fold (np.len (get_value (rewards self))) in Hin.
    rewrite (py_index_in_range _ Hin). simpl. eexists. split; [reflexivity|].
    unfold np.shape; simpl. rewrite length_map, length_seq. split; [reflexivity|].
    unfold row_at. apply concat_cells.
    set (k := Z.to_nat (batch_id mod Z.of_nat (np.len (get_value (rewards self))))).
    assert (Hk : k < np.len (get_value (rewards self))).
    { unfold k.
      pose proof (Z.mod_pos_bound batch_id (Z.of_nat (np.len (get_value (rewards self))))).
      lia. }
    pose proof (wf_row Hwf Hk) as Hrow. rewrite Hinner in Hrow. exact Hrow.
  - intros Hout. fold (np.len (get_value (rewards self))) in Hout.
    rewrite (py_index_out_of_range _ Hout). reflexivity.
Qed.

Lemma get_reward_reads_rewards_row_witness :
  get_reward scenario_pool (sessions_flat 0 1) (sessions_flat 0 1) (-1)
  = ([get_reward_warning],
     Ok {| np.inner := []; np.rows := [[2]; [2]; [2]; [2]; [2]]%Z |})
  /\ snd (get_reward scenario_pool (sessions_flat 0 1) (sessions_flat 0 1) 3)
     = Raise IndexError.
Proof.
  destruct (get_reward_reads_rewards_row scenario_pool (sessions_flat 0 1)
              (sessions_flat 0 1) 3 5 []) as (_ & _ & Hout).
  - repeat constructor.
  - reflexivity.
  - split; [reflexivity|]. apply Hout. simpl. lia.
Defined.

(** ** The updates that stand for a load *)

Lemma place_eqb_eq (p q : place) : place_eqb p q = true -> p = q.
Proof.
  destruct p, q; simpl; try discriminate; try reflexivity;
    intros Hpq; apply Nat.eqb_eq in Hpq; subst; reflexivity.
Qed.

Lemma setitem_fresh {S} (k : @key S) (v : np.ndarray S) (d : @OrderedDict S) :
  ~ In (fst k) (places d) -> setitem k v d = d ++ [(k, v)].
Proof.
  induction d as [|[k' v'] d IH]; simpl; intros Hfresh; [reflexivity|].
  destruct (place_eqb (fst k) (fst k')) eqn:Hk.
  - exfalso. apply Hfresh. left. symmetry. exact (place_eqb_eq _ _ Hk).
  - f_equal. apply IH. intros Hin. apply Hfresh. right. exact Hin.
Qed.

(** Setting items whose keys are new and distinct appends them. *)
Lemma fold_setitem_fresh {S A} (g : A -> @key S * np.ndarray S) (items : list A)
    (d : @OrderedDict S) :
  NoDup (places d ++ places (map g items)) ->
  fold_left (fun d a => setitem (fst (g a)) (snd (g a)) d) items d = d ++ map g items.
Proof.
  revert d; induction items as [|a items IH]; intros d Hnd; simpl.
  - symmetry; apply app_nil_r.
  - rewrite setitem_fresh.
    + rewrite IH.
      * rewrite <- app_assoc. simpl. destruct (g a); reflexivity.
      * unfold places in *. rewrite map_app, <- app_assoc. simpl.
        simpl in Hnd. exact Hnd.
    + simpl in Hnd. apply NoDup_remove_2 in Hnd.
      intros Hin. apply Hnd. apply in_or_app. left. exact Hin.
Qed.

Lemma places_entries {S} (mk : nat -> place) (vars : list (shared S))
    (seqs : list (np.ndarray S)) :
  length seqs = length vars ->
  places (combine (keys_of mk vars) seqs) = map mk (seq 0 (length vars)).
Proof.
  unfold keys_of, enumerate, places. generalize 0 as s.
  revert seqs; induction vars as [|v vars IH]; intros [|x seqs] s; simpl;
    try discriminate; [reflexivity|].
  intros [= Hl]. f_equal. apply IH. exact Hl.
Qed.

Lemma listed_places {S R} (self : @SessionPoolEnvironment S R)
    (obs act : list (np.ndarray S)) (rew : np.ndarray S)
    (alive : option (np.ndarray S)) (pm : option (list (np.ndarray S))) :
  counts_agree self obs act pm = true ->
  places (listed self obs act rew alive pm)
  = written_places self
      match alive with Some _ => true | None => false end
      match pm with Some _ => true | None => false end.
Proof.
  unfold counts_agree. intros Hc.
  apply andb_prop in Hc as [Hc Hm]. apply andb_prop in Hc as [Ho Ha].
  apply Nat.eqb_eq in Ho, Ha.
  assert (Happ : forall d1 d2 : @OrderedDict S, places (d1 ++ d2) = places d1 ++ places d2)
    by (intros d1 d2; apply map_app).
  unfold listed, written_places. rewrite !Happ.
  rewrite !places_entries by assumption.
  do 3 f_equal. f_equal; [destruct alive; reflexivity|].
  destruct pm as [l|]; [|reflexivity]. apply Nat.eqb_eq in Hm.
  exact (places_entries PrecedingMemoryVar _ l Hm).
Qed.

Lemma written_places_NoDup {S R} (self : @SessionPoolEnvironment S R) (a m : bool) :
  NoDup (written_places self a m).
Proof.
  assert (Hseq : forall (mk : nat -> place) n,
            (forall i j, mk i = mk j -> i = j) -> NoDup (map mk (seq 0 n))).
  { intros mk n Hinj. apply NoDup_map_NoDup_ForallPairs; [|apply seq_NoDup].
    intros i j _ _. apply Hinj. }
  unfold written_places.
  apply NoDup_app; [apply Hseq; intros i j [= ->]; reflexivity| |].
  2:{ intros p Hp Hq. apply in_map_iff in Hp as (i & <- & _).
      repeat (apply in_app_or in Hq as [Hq|Hq]).
      - apply in_map_iff in Hq as (j & Hj & _); discriminate.
      - destruct Hq as [Hq|[]]; discriminate.
      - destruct a; [destruct Hq as [Hq|[]]; discriminate|destruct Hq].
      - destruct m; [|destruct Hq]. apply in_map_iff in Hq as (j & Hj & _); discriminate. }
  apply NoDup_app; [apply Hseq; intros i j [= ->]; reflexivity| |].
  2:{ intros p Hp Hq. apply in_map_iff in Hp as (i & <- & _).
      repeat (apply in_app_or in Hq as [Hq|Hq]).
      - destruct Hq as [Hq|[]]; discriminate.
      - destruct a; [destruct Hq as [Hq|[]]; discriminate|destruct Hq].
      - destruct m; [|destruct Hq]. apply in_map_iff in Hq as (j & Hj & _); discriminate. }
  apply NoDup_app; [repeat constructor; intros []| |].
  2:{ intros p [<-|[]] Hq. apply in_app_or in Hq as [Hq|Hq].
      - destruct a; [destruct Hq as [Hq|[]]; discriminate|destruct Hq].
      - destruct m; [|destruct Hq]. apply in_map_iff in Hq as (j & Hj & _); discriminate. }
  apply NoDup_app.
  - destruct a; repeat constructor. intros [].
  - destruct m; [apply Hseq; intros i j [= ->]; reflexivity|constructor].
  - intros p Hp Hq. destruct a; [|destruct Hp]. destruct Hp as [<-|[]].
    destruct m; [|destruct Hq]. apply in_map_iff in Hq as (j & Hj & _); discriminate.
Qed.

(** [get_session_updates] in one equation. *)
Lemma get_session_updates_eq {S R} `{Scalar S} (self : @SessionPoolEnvironment S R)
    (obs act : list (np.ndarray S)) (rew : np.ndarray S)
    (alive : option (np.ndarray S)) (pm : option (list (np.ndarray S)))
    (cast_dtypes : bool) :
  get_session_updates self obs act rew alive pm cast_dtypes
  = if counts_agree self obs act pm then
      Ok (if cast_dtypes
          then map (fun item => (fst item, np.cast (var_dtype (snd (fst item))) (snd item)))
                   (listed self obs act rew alive pm)
          else listed self obs act rew alive pm)
    else Raise AssertionError.
Proof.
  destruct (counts_agree self obs act pm) eqn:Hc.
  2:{ unfold get_session_updates, counts_agree, rassert in *.
      destruct (length obs =? _); simpl; [|reflexivity].
      destruct (length act =? _); simpl; [|reflexivity].
      destruct pm as [l|]; [|discriminate].
      simpl in Hc. rewrite Hc. reflexivity. }
  pose proof (written_places_NoDup self
                match alive with Some _ => true | None => false end
                match pm with Some _ => true | None => false end) as Hnd.
  rewrite <- (listed_places self obs act rew alive pm Hc) in Hnd.
  assert (Hraw :
    match pm with
    | Some l =>
        setitem_each (keys_of PrecedingMemoryVar self.(preceding_agent_memories)) l
    | None => fun d => d
    end
      (match alive with
       | Some a => setitem (IsAliveVar, self.(is_alive)) a
       | None => fun d => d
       end
         (setitem (RewardsVar, self.(rewards)) rew
            (setitem_each (keys_of ActionVar self.(actions)) act
               (setitem_each (keys_of ObservationVar self.(observations)) obs []))))
    = listed self obs act rew alive pm).
  { transitivity (fold_left (fun d kv => setitem (fst kv) (snd kv) d)
                    (listed self obs act rew alive pm) []).
    - unfold listed, setitem_each. rewrite !fold_left_app.
      destruct alive, pm; reflexivity.
    - rewrite (fold_setitem_fresh (fun kv => kv));
        [simpl; apply map_id|rewrite map_id; exact Hnd]. }
  unfold get_session_updates, rassert.
  unfold counts_agree in Hc.
  apply andb_prop in Hc as [Hc Hm]. apply andb_prop in Hc as [Ho Ha].
  rewrite Ho, Ha. simpl.
  replace (match pm with
           | Some pm0 =>
               if length pm0 =? length (preceding_agent_memories self)
               then Ok tt else Raise AssertionError
           | None => Ok tt
           end) with (@Ok unit tt) by (destruct pm; [rewrite Hm|]; reflexivity).
  simpl. f_equal.
  assert (Hraw' :
    match pm with
    | Some l =>
        setitem_each (keys_of PrecedingMemoryVar self.(preceding_agent_memories)) l
          match alive with
          | Some a =>
              setitem (IsAliveVar, self.(is_alive)) a
                (setitem (RewardsVar, self.(rewards)) rew
                   (setitem_each (keys_of ActionVar self.(actions)) act
                      (setitem_each (keys_of ObservationVar self.(observations)) obs [])))
          | None =>
              setitem (RewardsVar, self.(rewards)) rew
                (setitem_each (keys_of ActionVar self.(actions)) act
                   (setitem_each (keys_of ObservationVar self.(observations)) obs []))
          end
    | None =>
        match alive with
        | Some a =>
            setitem (IsAliveVar, self.(is_alive)) a
              (setitem (RewardsVar, self.(rewards)) rew
                 (setitem_each (keys_of ActionVar self.(actions)) act
                    (setitem_each (keys_of ObservationVar self.(observations)) obs [])))
        | None =>
            setitem (RewardsVar, self.(rewards)) rew
              (setitem_each (keys_of ActionVar self.(actions)) act
                 (setitem_each (keys_of ObservationVar self.(observations)) obs []))
        end
    end = listed self obs act rew alive pm).
  { rewrite <- Hraw. destruct pm, alive; reflexivity. }
  rewrite Hraw'.
  destruct cast_dtypes; [|reflexivity].
  refine (fold_setitem_fresh
            (fun item => (fst item, np.cast (var_dtype (snd (fst item))) (snd item)))
            (listed self obs act rew alive pm) [] _).
  simpl. unfold places in *. rewrite map_map. simpl. exact Hnd.
Qed.

Lemma entries_values {S} `{Scalar S} (mk : nat -> place) (vars : list (shared S))
    (seqs : list (np.ndarray S)) :
  length seqs = length vars ->
  map (fun item => (fst (fst item),
                    Some (np.cast (var_dtype (snd (fst item))) (snd item))))
      (combine (keys_of mk vars) seqs)
  = map (fun i => (mk i, option_map (@get_value S) (nth_error (set_each vars seqs) i)))
        (seq 0 (length vars)).
Proof.
  intros Hl.
  assert (Hgen : forall s,
            map (fun item => (fst (fst item),
                              Some (np.cast (var_dtype (snd (fst item))) (snd item))))
                (combine (map (fun iv => (mk (fst iv), snd iv))
                              (combine (seq s (length vars)) vars)) seqs)
            = map (fun i => (mk i, option_map (@get_value S)
                                     (nth_error (set_each vars seqs) (i - s))))
                  (seq s (length vars))).
  { revert seqs Hl; induction vars as [|v vars IH]; intros [|x seqs] Hl s; simpl;
      try discriminate; [reflexivity|].
    injection Hl as Hl. rewrite Nat.sub_diag. simpl. f_equal.
    rewrite (IH seqs Hl (Datatypes.S s)).
    apply map_ext_in. intros i Hi. apply in_seq in Hi.
    replace (i - s) with (Datatypes.S (i - Datatypes.S s)) by lia. reflexivity. }
  unfold keys_of, enumerate. rewrite Hgen.
  apply map_ext. intros i. rewrite Nat.sub_0_r. reflexivity.
Qed.

(** X17.  For channel arguments given as lists: whenever [load_sessions]
    returns, [get_session_updates] with [cast_dtypes], on the same pool and
    the same arguments, returns a dict that pairs each place it lists with the
    value the pool holds at that place after the load; and the load changes
    the value of no other place.  (The pool itself is not written by
    [get_session_updates]; nothing is stated of a call on which the load
    raises.) *)
Theorem get_session_updates_stages_load
    {S R : Type} `{Scalar S} `{RandomStreams R}
    (self : @SessionPoolEnvironment S R) (obs act : list (np.ndarray S))
    (rew : np.ndarray S) (alive : option (np.ndarray S))
    (pm : option (list (np.ndarray S))) :
  let out := load_sessions obs act rew alive pm self in
  let written :=
    written_places self
      match alive with Some _ => true | None => false end
      match pm with Some _ => true | None => false end in
  fst out = Ok tt ->
  (exists updates,
     get_session_updates self obs act rew alive pm true = Ok updates
     /\ map (fun item => (fst (fst item), Some (snd item))) updates
        = map (fun p => (p, value_at (snd out) p)) written)
  /\ (forall p, ~ In p written -> value_at (snd out) p = value_at self p).
Proof.
  intros out written. unfold out.
  rewrite get_session_updates_eq, load_sessions_eq.
  destruct (counts_agree self obs act pm) eqn:Hc; [|discriminate].
  intros _. cbn [fst snd]. split.
  - eexists. split; [reflexivity|].
    unfold counts_agree in Hc.
    apply andb_prop in Hc as [Hc Hm]. apply andb_prop in Hc as [Ho Ha].
    apply Nat.eqb_eq in Ho, Ha.
    rewrite map_map.
    change (map (fun item =>
                   (fst (fst item),
                    Some (np.cast (var_dtype (snd (fst item))) (snd item))))
                (listed self obs act rew alive pm)
            = map (fun p => (p, value_at (loaded self obs act rew alive pm) p)) written).
    unfold written, written_places, listed. rewrite !map_app, !map_map.
    f_equal; [exact (entries_values ObservationVar _ obs Ho)|].
    f_equal; [exact (entries_values ActionVar _ act Ha)|].
    f_equal. f_equal.
    + destruct alive; reflexivity.
    + destruct pm as [l|]; [|reflexivity]. apply Nat.eqb_eq in Hm.
      rewrite map_map. exact (entries_values PrecedingMemoryVar _ l Hm).
  - assert (Hpast : forall (vars : list (shared S)) (seqs : list (np.ndarray S)) i,
              ~ In i (seq 0 (length vars)) ->
              nth_error (set_each vars seqs) i = nth_error vars i).
    { intros vars seqs i Hi.
      assert (length vars <= i) as Hle
        by (destruct (le_lt_dec (length vars) i) as [Hle|Hlt];
            [exact Hle|exfalso; apply Hi; apply in_seq; lia]).
      transitivity (@None (shared S)); [|symmetry]; apply nth_error_None;
        [rewrite set_each_keeps_length|]; exact Hle. }
    intros p Hp. unfold written, written_places in Hp.
    destruct p as [i|i|i| |]; unfold value_at, loaded; cbn [observations actions
      preceding_agent_memories rewards is_alive].
    + f_equal. apply Hpast. intros Hi. apply Hp.
      apply in_or_app. left. apply in_map. exact Hi.
    + f_equal. apply Hpast. intros Hi. apply Hp.
      apply in_or_app. right. apply in_or_app. left. apply in_map. exact Hi.
    + destruct pm as [l|]; [|reflexivity].
      f_equal. apply Hpast. intros Hi. apply Hp.
      do 4 (apply in_or_app; right). apply in_map. exact Hi.
    + exfalso. apply Hp. do 2 (apply in_or_app; right).
      apply in_or_app. left. left. reflexivity.
    + destruct alive as [a|]; [|reflexivity].
      exfalso. apply Hp. do 3 (apply in_or_app; right).
      apply in_or_app. left. left. reflexivity.
Qed.

Lemma get_session_updates_stages_load_witness :
  (exists updates,
     get_session_updates fresh_pool [three_obs] [three_rows 5 10 11 12]
       (three_rows 5 1 0 2) (Some (three_rows 5 300 1 1)) None true = Ok updates
     /\ map (fun item => (fst (fst item), Some (snd item))) updates
        = [(ObservationVar 0, Some three_obs);
           (ActionVar 0, Some (three_rows 5 10 11 12));
           (RewardsVar, Some (three_rows 5 1 0 2));
           (IsAliveVar, Some (three_rows 5 44 1 1))])
  /\ value_at
       (snd (load_sessions [three_obs] [three_rows 5 10 11 12]
               (three_rows 5 1 0 2) (Some (three_rows 5 300 1 1)) None fresh_pool))
       (PrecedingMemoryVar 0)
     = value_at fresh_pool (PrecedingMemoryVar 0).
Proof.
  destruct (get_session_updates_stages_load fresh_pool [three_obs]
              [three_rows 5 10 11 12] (three_rows 5 1 0 2)
              (Some (three_rows 5 300 1 1)) None eq_refl) as [Hstage Hrest].
  split.
  - exact Hstage.
  - apply Hrest. vm_compute. intros Hin.
    repeat (destruct Hin as [Hin|Hin]; [discriminate Hin|]). exact Hin.
Defined.

Lemma cast_items_values {S} `{Scalar S} (d : @OrderedDict S) :
  map snd (map (fun item => (fst item, np.cast (var_dtype (snd (fst item))) (snd item))) d)
  = zip_with (fun var seq => np.cast (var_dtype var) seq)
      (map (fun item => snd (fst item)) d) (map snd d).
Proof. induction d as [|[k v] d IH]; simpl; [|rewrite IH]; reflexivity. Qed.

Lemma entries_split {S} (mk : nat -> place) (vars : list (shared S))
    (seqs : list (np.ndarray S)) :
  length seqs = length vars ->
  map (fun item => snd (fst item)) (combine (keys_of mk vars) seqs) = vars
  /\ map snd (combine (keys_of mk vars) seqs) = seqs.
Proof.
  unfold keys_of, enumerate. generalize 0 as s.
  revert seqs; induction vars as [|v vars IH]; intros [|x seqs] s; simpl;
    try discriminate; [split; reflexivity|].
  intros [= Hl]. destruct (IH seqs (Datatypes.S s) Hl) as [Hv Hx].
  rewrite Hv, Hx. split; reflexivity.
Qed.

(** X18.  What the dict of [get_session_updates] holds.  When the channel
    counts agree, its keys are the variables of the pool, observations first,
    then actions, the rewards, the liveness if supplied and the memories if
    supplied, none of them twice; its values are, in the same order, the
    supplied arrays, as they are without [cast_dtypes] and each cast to the
    dtype of its own variable with it. *)
Theorem get_session_updates_items
    {S R : Type} `{Scalar S} `{RandomStreams R}
    (self : @SessionPoolEnvironment S R) (obs act : list (np.ndarray S))
    (rew : np.ndarray S) (alive : option (np.ndarray S))
    (pm : option (list (np.ndarray S))) (cast_dtypes : bool) :
  counts_agree self obs act pm = true ->
  let variables :=
    self.(observations) ++ self.(actions) ++ [self.(rewards)]
    ++ match alive with Some _ => [self.(is_alive)] | None => [] end
    ++ match pm with Some _ => self.(preceding_agent_memories) | None => [] end in
  let supplied :=
    obs ++ act ++ [rew]
    ++ match alive with Some a => [a] | None => [] end
    ++ match pm with Some l => l | None => [] end in
  exists updates,
    get_session_updates self obs act rew alive pm cast_dtypes = Ok updates
    /\ map (fun item => snd (fst item)) updates = variables
    /\ NoDup (places updates)
    /\ map snd updates
       = if cast_dtypes
         then zip_with (fun var seq => np.cast (var_dtype var) seq) variables supplied
         else supplied.
Proof.
  intros Hc variables supplied.
  rewrite get_session_updates_eq, Hc.
  pose proof (written_places_NoDup self
                match alive with Some _ => true | None => false end
                match pm with Some _ => true | None => false end) as Hnd.
  rewrite <- (listed_places self obs act rew alive pm Hc) in Hnd.
  assert (Hsplit : map (fun item => snd (fst item)) (listed self obs act rew alive pm)
                   = variables
                   /\ map snd (listed self obs act rew alive pm) = supplied).
  { unfold counts_agree in Hc.
    apply andb_prop in Hc as [Hc Hm]. apply andb_prop in Hc as [Ho Ha].
    apply Nat.eqb_eq in Ho, Ha.
    unfold listed, variables, supplied. rewrite !map_app. split.
    - f_equal; [exact (proj1 (entries_split ObservationVar _ _ Ho))|].
      f_equal; [exact (proj1 (entries_split ActionVar _ _ Ha))|].
      f_equal. f_equal; [destruct alive; reflexivity|].
      destruct pm as [l|]; [|reflexivity]. apply Nat.eqb_eq in Hm.
      exact (proj1 (entries_split PrecedingMemoryVar _ _ Hm)).
    - f_equal; [exact (proj2 (entries_split ObservationVar _ _ Ho))|].
      f_equal; [exact (proj2 (entries_split ActionVar _ _ Ha))|].
      f_equal. f_equal; [destruct alive; reflexivity|].
      destruct pm as [l|]; [|reflexivity]. apply Nat.eqb_eq in Hm.
      exact (proj2 (entries_split PrecedingMemoryVar _ _ Hm)). }
  destruct Hsplit as [Hvars Hvals].
  eexists. split; [reflexivity|].
  destruct cast_dtypes.
  - split; [rewrite map_map; exact Hvars|].
    split; [unfold places in *; rewrite map_map; exact Hnd|].
    exact (eq_trans (cast_items_values (listed self obs act rew alive pm))
             (f_equal2 (zip_with (fun var seq => np.cast (var_dtype var) seq))
                Hvars Hvals)).
  - split; [exact Hvars|]. split; [exact Hnd|exact Hvals].
Qed.

Lemma get_session_updates_items_witness :
  exists updates,
    get_session_updates fresh_pool [three_obs] [three_rows 5 10 11 12]
      (three_rows 5 1 0 2) (Some (three_rows 5 300 1 1)) None false = Ok updates
    /\ places updates = [ObservationVar 0; ActionVar 0; RewardsVar; IsAliveVar]
    /\ map snd updates
       = [three_obs; three_rows 5 10 11 12; three_rows 5 1 0 2; three_rows 5 300 1 1].
Proof.
  destruct (get_session_updates_items fresh_pool [three_obs] [three_rows 5 10 11 12]
              (three_rows 5 1 0 2) (Some (three_rows 5 300 1 1)) None false eq_refl)
    as (updates & Hrun & _ & _ & Hvals).
  exists updates. split; [exact Hrun|]. split; [|exact Hvals].
  vm_compute in Hrun. injection Hrun as <-. reflexivity.
Defined.

(** ** The batch and the time indices of a step *)

Lemma Exists_combine_l {A B} (P : A -> Prop) (xs : list A) (ys : list B) :
  length xs = length ys -> Exists P xs -> Exists (fun xy => P (fst xy)) (combine xs ys).
Proof.
  revert ys; induction xs as [|x xs IH]; intros [|y ys]; simpl; try discriminate.
  - intros _ Hbad; inversion Hbad.
  - intros [= Hl] Hbad. inversion Hbad as [? ? Hx|? ? Hrest]; subst.
    + left; exact Hx.
    + right. apply IH; assumption.
Qed.

Lemma index2_session_out_of_range {S} (a : np.ndarray S) (T1 : nat) (c : list nat)
    (ps ts : list Z) :
  np.inner a = T1 :: c -> length ps = length ts ->
  Exists (fun p => ~ (- Z.of_nat (np.len a) <= p < Z.of_nat (np.len a))%Z) ps ->
  np.index2 a ps ts = Raise IndexError.
Proof.
  intros Hinner Hl Hbad.
  destruct (np.index2 a ps ts) as [b|e] eqn:Hi; [|f_equal; exact (index2_raise _ _ _ _ Hi)].
  exfalso. unfold np.index2 in Hi. rewrite Hinner in Hi.
  destruct (rmap _ (combine ps ts)) as [cells|] eqn:Hr; simpl in Hi; [|discriminate].
  apply rmap_Forall2 in Hr.
  apply (Exists_combine_l _ ps ts Hl) in Hbad.
  clear Hi. induction Hr as [|[p t] cl l cells' Hpt _ IH]; [inversion Hbad|].
  inversion Hbad as [? ? Hp|? ? Hrest]; subst; [|exact (IH Hrest)].
  simpl in Hp, Hpt.
  rewrite (py_index_out_of_range _ Hp) in Hpt. discriminate Hpt.
Qed.

(** X19.  The batch of a step cannot exceed the pool: on well-formed
    observation streams of [T >= 1] ticks, [get_action_results] raises the index
    error whenever the vector of time indices is longer than some observation
    stream has sessions, whatever the time indices are. *)
Theorem get_action_results_batch_exceeds_pool
    {S R : Type} `{Scalar S} `{RandomStreams R}
    (self : @SessionPoolEnvironment S R) (time_i : list Z)
    (states_rest : list (list Z)) (actions_arg : list (np.ndarray S)) (T : nat) :
  0 < T ->
  Forall (fun v => np.wf (get_value v) /\ hd_error (np.inner (get_value v)) = Some T)
    self.(observations) ->
  Exists (fun v => np.len (get_value v) < length time_i) self.(observations) ->
  get_action_results self (time_i :: states_rest) actions_arg = Raise IndexError.
Proof.
  intros HT Hobs Hbig.
  rewrite Forall_forall in Hobs.
  unfold get_action_results.
  replace (getitem (time_i :: states_rest) 0) with (Ok time_i)
    by (unfold getitem, py_index; simpl; reflexivity).
  simpl rbind at 1. unfold padded_observations. rewrite rmap_map.
  erewrite rmap_raises with (e0 := IndexError); [reflexivity| |].
  - intros v e Hv. destruct (Hobs v Hv) as (Hwf & Hhd).
    destruct (np.inner (get_value v)) as [|T' c] eqn:Hc; [discriminate|].
    injection Hhd as ->.
    rewrite (padded_one_more_tick Hwf Hc HT). simpl. apply index2_raise.
  - apply Exists_exists. apply Exists_exists in Hbig as (v & Hv & Hlen).
    exists v. split; [exact Hv|].
    destruct (Hobs v Hv) as (Hwf & Hhd).
    destruct (np.inner (get_value v)) as [|T' c] eqn:Hc; [discriminate|].
    injection Hhd as ->.
    rewrite (padded_one_more_tick Hwf Hc HT). simpl.
    apply index2_session_out_of_range with (T1 := T + 1) (c := c).
    + unfold one_more_tick. rewrite Hc. reflexivity.
    + rewrite !length_map, length_seq. reflexivity.
    + apply Exists_exists. exists (Z.of_nat (np.len (get_value v))). split.
      * apply in_map, in_seq. lia.
      * unfold one_more_tick, np.len; simpl. rewrite length_map. lia.
Qed.

Lemma get_action_results_batch_exceeds_pool_witness :
  get_action_results scenario_pool [[0; 0; 0; 0]%Z] [] = Raise IndexError.
Proof.
  apply (get_action_results_batch_exceeds_pool scenario_pool [0; 0; 0; 0]%Z [] [] 5).
  - lia.
  - repeat constructor.
  - left. unfold np.len. simpl. lia.
Defined.

Lemma index2_wrapping {S} (pad : np.ndarray S) (T1 : nat) (c : list nat)
    (time_i : list Z) :
  np.inner pad = T1 :: c ->
  length time_i <= np.len pad ->
  Forall (fun t => - Z.of_nat T1 <= t + 1 < Z.of_nat T1)%Z time_i ->
  np.index2 pad (map Z.of_nat (seq 0 (length time_i))) (map (fun t => t + 1)%Z time_i)
  = Ok {| np.inner := c;
          np.rows := map (fun bt => at2 pad (fst bt)
                                      (Z.to_nat ((snd bt + 1) mod Z.of_nat T1)))
                         (enumerate time_i) |}.
Proof.
  intros Hinner Hfit Hts.
  unfold np.index2. rewrite Hinner. simpl.
  rewrite combine_map, rmap_map.
  erewrite rmap_ok; [unfold enumerate, at2; rewrite Hinner; reflexivity|].
  intros [b t] Hbt; simpl.
  pose proof (in_combine_l _ _ _ _ Hbt) as Hb. apply in_seq in Hb.
  pose proof (in_combine_r _ _ _ _ Hbt) as Ht.
  rewrite Forall_forall in Hts. specialize (Hts t Ht).
  rewrite (@py_index_nonneg (np.len pad)) by lia.
  rewrite (py_index_in_range _ Hts).
  simpl. rewrite Nat2Z.id. reflexivity.
Qed.

(** X20.  Time indices below zero do not make the step raise: they wrap, as
    Python indices do.  For time indices in [[-(T+2), T)] the step returns
    [padded[b, (t + 1) mod (T + 1)]]; so the state [-1] is followed by the first
    tick of the stream, and the state [-2] by the zeros of the padding. *)
Theorem get_action_results_wraps
    {S R : Type} `{Scalar S} `{RandomStreams R}
    (self : @SessionPoolEnvironment S R) (time_i : list Z)
    (actions_arg : list (np.ndarray S)) (T : nat) :
  0 < T ->
  Forall (fun v => np.wf (get_value v)
                   /\ hd_error (np.inner (get_value v)) = Some T
                   /\ length time_i <= np.len (get_value v))
    self.(observations) ->
  Forall (fun t => - Z.of_nat T - 2 <= t < Z.of_nat T)%Z time_i ->
  let padded := fun v : shared S => one_more_tick (get_value v) in
  let wrapped := fun t => Z.to_nat ((t + 1) mod (Z.of_nat T + 1)) in
  get_action_results self [time_i] actions_arg
  = Ok ([map (fun t => t + 1)%Z time_i],
        map (fun v => {| np.inner := tl (np.inner (get_value v));
                         np.rows := map (fun bt => at2 (padded v) (fst bt) (wrapped (snd bt)))
                                        (enumerate time_i) |})
            self.(observations))
  /\ (forall v b, In v self.(observations) -> b < np.len (get_value v) ->
      at2 (padded v) b (wrapped (-1)%Z) = at2 (get_value v) b 0
      /\ at2 (padded v) b (wrapped (-2)%Z)
         = repeat zero (np.size (tl (np.inner (get_value v))))).
Proof.
  intros HT Hobs Hts padded wrapped.
  rewrite Forall_forall in Hobs.
  assert (Hshape : forall v, In v self.(observations) ->
            exists c, np.inner (get_value v) = T :: c).
  { intros v Hv. destruct (Hobs v Hv) as (_ & Hhd & _).
    destruct (np.inner (get_value v)) as [|T' c]; [discriminate|].
    injection Hhd as ->. exists c; reflexivity. }
  split.
  - unfold get_action_results.
    replace (getitem [time_i] 0) with (Ok time_i) by reflexivity.
    simpl rbind at 1. unfold padded_observations. rewrite rmap_map.
    erewrite rmap_ok; [reflexivity|].
    intros v Hv. destruct (Hshape v Hv) as (c & Hc).
    destruct (Hobs v Hv) as (Hwf & _ & Hfit).
    rewrite (padded_one_more_tick Hwf Hc HT). simpl.
    rewrite (index2_wrapping (one_more_tick (get_value v)) (T + 1) c time_i).
    + rewrite Hc. unfold wrapped, padded. simpl.
      replace (Z.of_nat (T + 1)) with (Z.of_nat T + 1)%Z by lia. reflexivity.
    + unfold one_more_tick. rewrite Hc. reflexivity.
    + unfold one_more_tick, np.len; simpl. rewrite length_map. exact Hfit.
    + eapply Forall_impl; [|exact Hts]. simpl. intros t Ht. lia.
  - intros v b Hv Hb. destruct (Hshape v Hv) as (c & Hc).
    destruct (Hobs v Hv) as (Hwf & _).
    destruct (one_more_tick_at2 Hwf Hc Hb) as [Hin Hend].
    unfold wrapped, padded. rewrite Hc. simpl tl.
    replace (Z.to_nat ((-1 + 1) mod (Z.of_nat T + 1))) with 0
      by (rewrite Z.mod_small; lia).
    replace (Z.to_nat ((-2 + 1) mod (Z.of_nat T + 1))) with T.
    + split; [apply Hin; exact HT|exact Hend].
    + rewrite <- (Z.mod_unique_pos (-2 + 1) (Z.of_nat T + 1) (-1) (Z.of_nat T)) by lia.
      lia.
Qed.

Lemma get_action_results_wraps_witness :
  get_action_results scenario_pool [[(-1); (-2); (-7)]%Z] []
  = Ok ([[0; (-1); (-6)]%Z],
        [{| np.inner := [2]; np.rows := [[10; 10]; [0; 0]; [12; 12]]%Z |}]).
Proof.
  destruct (get_action_results_wraps scenario_pool [(-1); (-2); (-7)]%Z [] 5)
    as (Hstep & _).
  - lia.
  - repeat constructor; simpl; lia.
  - repeat constructor; lia.
  - rewrite Hstep. reflexivity.
Defined.

(** ** Selecting what was loaded *)

Lemma map_zip_with {A B C D} (f : C -> D) (g : A -> B -> C) (xs : list A) (ys : list B) :
  map f (zip_with g xs ys) = zip_with (fun x y => f (g x y)) xs ys.
Proof.
  revert ys; induction xs as [|x xs IH]; intros [|y ys]; simpl; try reflexivity.
  rewrite IH. reflexivity.
Qed.

Lemma gathered_set_each {S} `{Scalar S} (vars : list (shared S))
    (seqs : list (np.ndarray S)) (selector : list Z) :
  length seqs = length vars ->
  map (fun v => gathered (get_value v) selector) (set_each vars seqs)
  = zip_with (fun var seq => gathered (np.cast (var_dtype var) seq) selector) vars seqs.
Proof.
  intros Hl.
  rewrite <- (map_map (@get_value S) (fun a => gathered a selector)).
  rewrite (set_each_values _ _ Hl). apply map_zip_with.
Qed.

(** X21.  Loading and then selecting returns the loaded sessions: after a
    load of arrays that all hold [k] sessions (liveness and memories supplied),
    a selector with indices in [[-k, k)] returns, for every stream, the rows of
    the array supplied for it, cast to the dtype of the stream and gathered in
    the order of the selector.  Nothing of what the pool held before is in the
    batch. *)
Theorem select_session_batch_after_load
    {S R : Type} `{Scalar S} `{RandomStreams R}
    (self : @SessionPoolEnvironment S R) (obs act : list (np.ndarray S))
    (rew alive : np.ndarray S) (pm : list (np.ndarray S)) (k : nat)
    (selector : list Z) :
  counts_agree self obs act (Some pm) = true ->
  sessions_supplied k obs act rew alive pm ->
  Forall (fun i => - Z.of_nat k <= i < Z.of_nat k)%Z selector ->
  let self' := snd (load_sessions obs act rew (Some alive) (Some pm) self) in
  let picked := fun (var : shared S) seq =>
    gathered (np.cast (var_dtype var) seq) selector in
  select_session_batch selector self'
  = (Ok {| batch_observations := zip_with picked self.(observations) obs;
           batch_observation_shapes := self.(observation_shapes);
           batch_actions := zip_with picked self.(actions) act;
           batch_action_shapes := self.(action_shapes);
           batch_rewards := picked self.(rewards) rew;
           batch_is_alive := picked self.(is_alive) alive;
           batch_preceding_agent_memories :=
             zip_with picked self.(preceding_agent_memories) pm |},
     self').
Proof.
  intros Hc Hk Hsel self' picked. unfold self'.
  rewrite load_sessions_eq, Hc. cbn [snd].
  destruct (loaded_consistent self obs act rew alive pm k Hc Hk) as [Hcons Hsize].
  rewrite select_session_batch_in_range; [|exact Hcons|rewrite Hsize; exact Hsel].
  unfold counts_agree in Hc.
  apply andb_prop in Hc as [Hc Hm]. apply andb_prop in Hc as [Ho Ha].
  apply Nat.eqb_eq in Ho, Ha, Hm.
  unfold loaded; simpl.
  rewrite !gathered_set_each by assumption. reflexivity.
Qed.

Lemma select_session_batch_after_load_witness :
  exists batch self',
    select_session_batch [2; 0]%Z scenario_pool = (Ok batch, self')
    /\ np.rows (batch_rewards batch) = [[2; 2; 2; 2; 2]; [1; 1; 1; 1; 1]]%Z
    /\ np.rows (batch_is_alive batch) = [[1; 1; 1; 1; 1]; [1; 1; 1; 1; 1]]%Z.
Proof.
  eexists. eexists. split.
  - apply (select_session_batch_after_load fresh_pool [three_obs]
             [three_rows 5 10 11 12] (three_rows 5 1 0 2) (three_rows 5 1 1 1)
             [three_rows 5 10 11 12] 3 [2; 0]%Z).
    + reflexivity.
    + repeat constructor.
    + repeat constructor; lia.
  - split; reflexivity.
Defined.
